(** * SavingsPool / ReceiptNFT: a shallow embedding of the two contracts

    [SavingsPool] (the position-accounting engine) and [ReceiptNFT] (the
    certificate authority) are Solidity 0.8 contracts.  They are embedded
    here as functions in a small reader/state/error monad over a [World]
    that holds the storage of both contracts, the native balance of the
    pool and the event log.  A revert discards every effect of the call,
    which is what [transact] implements at the top level.

    Unsigned integers are [Z] with the checked arithmetic of Solidity 0.8
    written out (overflow and underflow abort with a panic); explicit
    narrowing casts [uint128(x)], [uint64(x)] truncate. *)

From Stdlib Require Import ZArith Lia.
From stdpp Require Import base option gmap strings.

Local Open Scope Z_scope.

(** ** Data model *)

(** [struct Position] of SavingsPool. *)
Record Position := mkPosition {
  principal : Z;   (* uint128, wei *)
  start : Z;       (* uint64, timestamp in seconds *)
  active : bool    (* true until withdrawn *)
}.

(** An unset slot of a Solidity mapping reads as the all-zero value. *)
Global Instance Position_inhabited : Inhabited Position :=
  populate (mkPosition 0 0 false).

(** [_status] of OpenZeppelin's ReentrancyGuard. *)
Inductive Status := NOT_ENTERED | ENTERED.

Global Instance Status_eq_dec : EqDecision Status.
Proof. solve_decision. Defined.

(** Storage of SavingsPool (with the inherited Ownable and ReentrancyGuard
    slots). *)
Record PoolStorage := mkPool {
  pool_owner : Z;                 (* Ownable._owner *)
  _status : Status;               (* ReentrancyGuard._status *)
  aprBps : Z;
  nextId : Z;
  positions : gmap Z Position
}.

(** Storage of ReceiptNFT (with the inherited ERC721, ERC721URIStorage and
    Ownable slots). *)
Record NftStorage := mkNft {
  nft_owner : Z;                  (* Ownable._owner *)
  pool : Z;
  _owners : gmap Z Z;             (* ERC721._owners *)
  _balances : gmap Z Z;           (* ERC721._balances *)
  _tokenApprovals : gmap Z Z;     (* ERC721._tokenApprovals *)
  _tokenURIs : gmap Z string      (* ERC721URIStorage._tokenURIs *)
}.

(** The events of the two contracts, and those of the library that the
    functions modelled here emit. *)
Inductive Event :=
| Deposited (tokenId owner amount : Z)
| Withdrawn (tokenId owner payout : Z)
| AprUpdated (oldBps newBps : Z)
| Transfer (from to tokenId : Z)
| OwnershipTransferred (previousOwner newOwner : Z)
| MetadataUpdate (tokenId : Z).

(** The two contracts as deployed: [receipt] of the pool is the ReceiptNFT
    whose storage is [nft]; [pool_address] is [address(this)] of the pool. *)
Record World := mkWorld {
  sp : PoolStorage;
  nft : NftStorage;
  pool_address : Z;
  balance : Z;                    (* native balance held by the pool *)
  log : list Event                (* oldest first *)
}.

(** Every way a call can abort.  The comment gives the revert reason of the
    source. *)
Inductive Error :=
| CallerNotOwner     (* Ownable: caller is not the owner *)
| NewOwnerZero       (* Ownable: new owner is the zero address *)
| ReentrantCall      (* ReentrancyGuard: reentrant call *)
| AprTooHigh         (* apr too high *)
| AmountZero         (* amount=0 *)
| NotActive          (* !active *)
| NotHolder          (* !owner *)
| XferFailed         (* xfer failed *)
| UseDeposit         (* use deposit() *)
| ArithmeticPanic    (* Panic(0x11): checked overflow or underflow *)
| NotPool            (* error NotPool() *)
| PoolZero           (* pool=0 *)
| MintToZero         (* ERC721: mint to the zero address *)
| AlreadyMinted      (* ERC721: token already minted *)
| NonReceiver        (* ERC721: transfer to non ERC721Receiver implementer *)
| InvalidTokenId     (* ERC721: invalid token ID *)
| URIOfNonexistent.  (* ERC721URIStorage: URI set of nonexistent token *)

Global Instance Error_eq_dec : EqDecision Error.
Proof. solve_decision. Defined.

(** The error kinds of the specification, and the kind each abort of the
    code falls under. *)
Inductive ErrorKind :=
| Unauthorized | ZeroAmount | RateTooHigh | DuplicateId | NotFound
| KNotActive | NotOwner | TransferFailed | OtherFailure.

Definition kind (e : Error) : ErrorKind :=
  match e with
  | CallerNotOwner | NotPool => Unauthorized
  | AmountZero => ZeroAmount
  | AprTooHigh => RateTooHigh
  | AlreadyMinted => DuplicateId
  | InvalidTokenId => NotFound
  | NotActive => KNotActive
  | NotHolder => NotOwner
  | XferFailed => TransferFailed
  | _ => OtherFailure
  end.

Inductive Result (A : Type) :=
| Ok (a : A)
| Revert (e : Error).
Arguments Ok {A} a.
Arguments Revert {A} e.

(** The call context: [msg.sender], [msg.value], [block.timestamp], and the
    two places where control leaves the contracts for code of the
    counterparty: the ERC721 receiver check made by [_safeMint], kept as
    its verdict, and the code run by an account when it is sent value
    ([None]: that code aborts, so the low-level call reports failure). *)
Record Env := mkEnv {
  sender : Z;
  value : Z;
  timestamp : Z;
  accepts_receipt : Z -> bool;
  on_receive : Z -> World -> option World
}.

(** ** The monad of contract code *)

Definition M (A : Type) : Type := Env -> World -> Result (A * World).

Definition ret {A} (a : A) : M A := fun _ w => Ok (a, w).

Definition bind {A B} (m : M A) (k : A -> M B) : M B :=
  fun e w =>
    match m e w with
    | Ok (a, w') => k a e w'
    | Revert err => Revert err
    end.

Global Instance M_ret : MRet M := @ret.
Global Instance M_bind : MBind M := fun A B k m => bind m k.

Definition revert {A} (err : Error) : M A := fun _ _ => Revert err.

Definition require (b : bool) (err : Error) : M unit :=
  if b then ret tt else revert err.

Definition ask {A} (f : Env -> A) : M A := fun e w => Ok (f e, w).
Definition gets {A} (f : World -> A) : M A := fun _ w => Ok (f w, w).
Definition modify (f : World -> World) : M unit := fun _ w => Ok (tt, f w).

Definition msg_sender : M Z := ask sender.
Definition msg_value : M Z := ask value.
Definition block_timestamp : M Z := ask timestamp.

(** A top-level transaction: all or nothing. *)
Definition transact {A} (m : M A) (e : Env) (w : World) : World * Result A :=
  match m e w with
  | Ok (a, w') => (w', Ok a)
  | Revert err => (w, Revert err)
  end.

(** *** Integers *)

Definition MAX_UINT256 : Z := 2 ^ 256 - 1.

Definition uint128 (x : Z) : Z := x mod 2 ^ 128.
Definition uint64 (x : Z) : Z := x mod 2 ^ 64.

Definition checked_add (a b : Z) : M Z :=
  if a + b <=? MAX_UINT256 then ret (a + b) else revert ArithmeticPanic.

Definition checked_sub (a b : Z) : M Z :=
  if b <=? a then ret (a - b) else revert ArithmeticPanic.

Definition checked_mul (a b : Z) : M Z :=
  if a * b <=? MAX_UINT256 then ret (a * b) else revert ArithmeticPanic.

(** *** Storage access *)

Definition set_sp (f : PoolStorage -> PoolStorage) (w : World) : World :=
  mkWorld (f (sp w)) (nft w) (pool_address w) (balance w) (log w).

Definition set_nft (f : NftStorage -> NftStorage) (w : World) : World :=
  mkWorld (sp w) (f (nft w)) (pool_address w) (balance w) (log w).

Definition set_balance (b : Z) (w : World) : World :=
  mkWorld (sp w) (nft w) (pool_address w) b (log w).

Definition emit (ev : Event) : M unit :=
  modify (fun w => mkWorld (sp w) (nft w) (pool_address w) (balance w) (log w ++ [ev])).

(** Reading a [mapping(uint256 => address)] or [uint256] slot. *)
Definition slot (m : gmap Z Z) (k : Z) : Z := default 0 (m !! k).

Definition position_of (w : World) (tokenId : Z) : Position :=
  positions (sp w) !!! tokenId.

(** ** OpenZeppelin v4 base contracts

    Both contracts import OpenZeppelin 4.x ([Ownable], [ReentrancyGuard],
    [ERC721], [ERC721URIStorage]).  The library is a dependency of the
    repository, not part of it; the pieces the two contracts call are
    written out here after release 4.9 of the library, hooks that are
    empty in these contracts left out. *)

Module ERC721.

(** [_ownerOf] and [_exists]. *)
Definition _ownerOf (tokenId : Z) : M Z :=
  gets (fun w => slot (_owners (nft w)) tokenId).

Definition _exists (tokenId : Z) : M bool :=
  o ← _ownerOf tokenId; mret (negb (o =? 0)).

Definition ownerOf (tokenId : Z) : M Z :=
  o ← _ownerOf tokenId;
  require (negb (o =? 0)) InvalidTokenId;;
  mret o.

Definition _mint (to tokenId : Z) : M unit :=
  require (negb (to =? 0)) MintToZero;;
  ex ← _exists tokenId;
  require (negb ex) AlreadyMinted;;
  modify (set_nft (fun n =>
    mkNft (nft_owner n) (pool n)
          (<[tokenId := to]> (_owners n))
          (<[to := (slot (_balances n) to + 1) mod 2 ^ 256]> (_balances n))
          (_tokenApprovals n) (_tokenURIs n)));;
  emit (Transfer 0 to tokenId).

(** [_checkOnERC721Received]: an account without code passes; a contract
    passes when its [onERC721Received] answers with the selector.  Only the
    verdict is kept: what the code of a receiving contract does while it
    runs (it may pass the certificate on, or call functions of the pool
    that are not guarded) is not part of the model, and the properties of
    a successful [mint] or deposit below state only what such code cannot
    undo. *)
Definition _checkOnERC721Received (to : Z) : M bool :=
  ask (fun e => accepts_receipt e to).

Definition _safeMint (to tokenId : Z) : M unit :=
  _mint to tokenId;;
  ok ← _checkOnERC721Received to;
  require ok NonReceiver.

Definition _burn (tokenId : Z) : M unit :=
  owner ← ownerOf tokenId;
  modify (set_nft (fun n =>
    mkNft (nft_owner n) (pool n)
          (delete tokenId (_owners n))
          (<[owner := (slot (_balances n) owner - 1) mod 2 ^ 256]> (_balances n))
          (delete tokenId (_tokenApprovals n)) (_tokenURIs n)));;
  emit (Transfer owner 0 tokenId).

End ERC721.

Module ERC721URIStorage.

Definition _setTokenURI (tokenId : Z) (uri : string) : M unit :=
  ex ← ERC721._exists tokenId;
  require ex URIOfNonexistent;;
  modify (set_nft (fun n =>
    mkNft (nft_owner n) (pool n) (_owners n) (_balances n)
          (_tokenApprovals n) (<[tokenId := uri]> (_tokenURIs n))));;
  emit (MetadataUpdate tokenId).

Definition _burn (tokenId : Z) : M unit :=
  ERC721._burn tokenId;;
  stored ← gets (fun w => default EmptyString (_tokenURIs (nft w) !! tokenId));
  if negb (String.length stored =? 0)%nat
  then modify (set_nft (fun n =>
         mkNft (nft_owner n) (pool n) (_owners n) (_balances n)
               (_tokenApprovals n) (delete tokenId (_tokenURIs n))))
  else mret tt.

(** [tokenURI] of ERC721URIStorage; [_baseURI()] is the empty string in
    ReceiptNFT, so the stored URI is returned as it is. *)
Definition tokenURI (tokenId : Z) : M string :=
  ex ← ERC721._exists tokenId;
  require ex InvalidTokenId;;
  gets (fun w => default EmptyString (_tokenURIs (nft w) !! tokenId)).

End ERC721URIStorage.

(** ** ReceiptNFT *)

Module ReceiptNFT.

Definition onlyOwner {A} (body : M A) : M A :=
  s ← msg_sender;
  o ← gets (fun w => nft_owner (nft w));
  require (o =? s) CallerNotOwner;;
  body.

(** [modifier onlyPool]. *)
Definition onlyPool {A} (body : M A) : M A :=
  s ← msg_sender;
  p ← gets (fun w => pool (nft w));
  (if negb (s =? p) then revert NotPool else mret tt);;
  body.

Definition setPool (_pool : Z) : M unit :=
  onlyOwner (
    require (negb (_pool =? 0)) PoolZero;;
    modify (set_nft (fun n =>
      mkNft (nft_owner n) _pool (_owners n) (_balances n)
            (_tokenApprovals n) (_tokenURIs n)))).

Definition mint (to tokenId : Z) (uri : string) : M unit :=
  onlyPool (
    ERC721._safeMint to tokenId;;
    if negb (String.length uri =? 0)%nat
    then ERC721URIStorage._setTokenURI tokenId uri
    else mret tt).

Definition _burn (tokenId : Z) : M unit :=
  ERC721URIStorage._burn tokenId.

Definition burn (tokenId : Z) : M unit :=
  onlyPool (_burn tokenId).

Definition ownerOf (tokenId : Z) : M Z := ERC721.ownerOf tokenId.

Definition tokenURI (tokenId : Z) : M string :=
  ERC721URIStorage.tokenURI tokenId.

End ReceiptNFT.

(** ** SavingsPool *)

Module SavingsPool.

(** A call from the pool into [receipt]: there [msg.sender] is the pool.
    A revert of the callee propagates. *)
Definition call_receipt {A} (m : M A) : M A :=
  fun e w =>
    m (mkEnv (pool_address w) 0 (timestamp e) (accepts_receipt e) (on_receive e)) w.

(** [to.call{value: pay}(empty)]: the boolean is false when the pool
    cannot cover [pay] or when the recipient's code aborts; in both
    cases nothing of the inner call remains. *)
Definition call_value (to pay : Z) : M bool :=
  fun e w =>
    if pay <=? balance w then
      match on_receive e to (set_balance (balance w - pay) w) with
      | Some w' => Ok (true, w')
      | None => Ok (false, w)
      end
    else Ok (false, w).

Definition onlyOwner {A} (body : M A) : M A :=
  s ← msg_sender;
  o ← gets (fun w => pool_owner (sp w));
  require (o =? s) CallerNotOwner;;
  body.

Definition set_status (st : Status) : M unit :=
  modify (set_sp (fun p =>
    mkPool (pool_owner p) st (aprBps p) (nextId p) (positions p))).

(** [modifier nonReentrant] of ReentrancyGuard. *)
Definition nonReentrant {A} (body : M A) : M A :=
  st ← gets (fun w => _status (sp w));
  require (negb (bool_decide (st = ENTERED))) ReentrantCall;;
  set_status ENTERED;;
  r ← body;
  set_status NOT_ENTERED;;
  mret r.

(** A payable entry point is credited [msg.value] before its body runs. *)
Definition payable {A} (body : M A) : M A :=
  v ← msg_value;
  modify (fun w => set_balance (balance w + v) w);;
  body.

Definition set_position (tokenId : Z) (p : Position) : M unit :=
  modify (set_sp (fun s =>
    mkPool (pool_owner s) (_status s) (aprBps s) (nextId s)
           (<[tokenId := p]> (positions s)))).

Definition setApr (bps : Z) : M unit :=
  onlyOwner (
    require (bps <=? 5000) AprTooHigh;;
    old ← gets (fun w => aprBps (sp w));
    modify (set_sp (fun s =>
      mkPool (pool_owner s) (_status s) bps (nextId s) (positions s)));;
    emit (AprUpdated old bps)).

Definition _depositWithURI (uri : string) : M Z :=
  amount ← msg_value;
  require (0 <? amount) AmountZero;;
  n ← gets (fun w => nextId (sp w));
  tokenId ← checked_add n 1;
  modify (set_sp (fun s =>
    mkPool (pool_owner s) (_status s) (aprBps s) tokenId (positions s)));;
  now ← block_timestamp;
  set_position tokenId (mkPosition (uint128 amount) (uint64 now) true);;
  s ← msg_sender;
  call_receipt (ReceiptNFT.mint s tokenId uri);;
  emit (Deposited tokenId s amount);;
  mret tokenId.

Definition deposit : M Z :=
  payable (nonReentrant (_depositWithURI EmptyString)).

Definition depositWithURI (uri : string) : M Z :=
  payable (nonReentrant (_depositWithURI uri)).

Definition accrued (tokenId : Z) : M Z :=
  p ← gets (fun w => position_of w tokenId);
  require (active p) NotActive;;
  now ← block_timestamp;
  dt ← checked_sub now (start p);
  apr ← gets (fun w => aprBps (sp w));
  x ← checked_mul (principal p) apr;
  y ← checked_mul x dt;
  mret (y / (365 * 86400 * 10000)).

Definition payoutOf (tokenId : Z) : M Z :=
  p ← gets (fun w => position_of w tokenId);
  require (active p) NotActive;;
  a ← accrued tokenId;
  checked_add (principal p) a.

(** [p] is a storage pointer: [p.active = false] writes the slot, and the
    later read of [p.principal] and the call of [accrued] see the slot as
    written. *)
Definition withdraw (tokenId : Z) : M unit :=
  nonReentrant (
    p ← gets (fun w => position_of w tokenId);
    require (active p) NotActive;;
    holder ← call_receipt (ReceiptNFT.ownerOf tokenId);
    s ← msg_sender;
    require (holder =? s) NotHolder;;
    set_position tokenId (mkPosition (principal p) (start p) false);;
    p' ← gets (fun w => position_of w tokenId);
    a ← accrued tokenId;
    pay ← checked_add (principal p') a;
    call_receipt (ReceiptNFT.burn tokenId);;
    ok ← call_value s pay;
    require ok XferFailed;;
    emit (Withdrawn tokenId s pay)).

Definition receive : M unit := revert UseDeposit.

(** Inherited from Ownable. *)
Definition set_owner (newOwner : Z) : M unit :=
  old ← gets (fun w => pool_owner (sp w));
  modify (set_sp (fun s =>
    mkPool newOwner (_status s) (aprBps s) (nextId s) (positions s)));;
  emit (OwnershipTransferred old newOwner).

Definition transferOwnership (newOwner : Z) : M unit :=
  onlyOwner (
    require (negb (newOwner =? 0)) NewOwnerZero;;
    set_owner newOwner).

Definition renounceOwnership : M unit :=
  onlyOwner (set_owner 0).

(** [constructor(_aprBps, _receipt)], run by [deployer]; the receipt
    address is the ReceiptNFT of the world, hence not zero. *)
Definition constructor (_aprBps deployer : Z) : Result PoolStorage :=
  if _aprBps <=? 5000
  then Ok (mkPool deployer NOT_ENTERED _aprBps 0 ∅)
  else Revert AprTooHigh.

End SavingsPool.

(** ** Transactions and reachable states *)

(** The state-changing entry points of the pool. *)
Inductive Call :=
| CallSetApr (bps : Z)
| CallDeposit
| CallDepositWithURI (uri : string)
| CallWithdraw (tokenId : Z)
| CallReceive
| CallTransferOwnership (newOwner : Z)
| CallRenounceOwnership.

Definition exec (c : Call) (e : Env) (w : World) : World :=
  match c with
  | CallSetApr bps => fst (transact (SavingsPool.setApr bps) e w)
  | CallDeposit => fst (transact SavingsPool.deposit e w)
  | CallDepositWithURI uri => fst (transact (SavingsPool.depositWithURI uri) e w)
  | CallWithdraw tokenId => fst (transact (SavingsPool.withdraw tokenId) e w)
  | CallReceive => fst (transact SavingsPool.receive e w)
  | CallTransferOwnership a => fst (transact (SavingsPool.transferOwnership a) e w)
  | CallRenounceOwnership => fst (transact SavingsPool.renounceOwnership e w)
  end.

(** Arguments and context as the EVM hands them over: addresses are 160-bit,
    [uint256] arguments and [msg.value] are 256-bit, and the block
    timestamp is a 64-bit number of seconds. *)
Definition wf_env (e : Env) : Prop :=
  0 <= sender e < 2 ^ 160 /\ 0 <= value e <= MAX_UINT256 /\
  0 <= timestamp e < 2 ^ 64.

Definition wf_call (c : Call) : Prop :=
  match c with
  | CallSetApr bps => 0 <= bps <= MAX_UINT256
  | CallWithdraw tokenId => 0 <= tokenId <= MAX_UINT256
  | CallTransferOwnership a => 0 <= a < 2 ^ 160
  | _ => True
  end.

(** States of the world after deployment and any number of transactions;
    between two calls of the pool anything outside its storage may have
    changed (certificates change hands, the log grows). *)
Inductive reachable : World -> Prop :=
| reach_deploy apr deployer s n addr :
    0 <= apr ->
    SavingsPool.constructor apr deployer = Ok s ->
    reachable (mkWorld s n addr 0 [])
| reach_call w c e :
    reachable w -> wf_call c -> wf_env e -> reachable (exec c e w)
| reach_outside w w' :
    reachable w -> sp w' = sp w -> pool_address w' = pool_address w ->
    reachable w'.

(** A position has been created once its id has been handed out. *)
Definition created (w : World) (tokenId : Z) : Prop :=
  1 <= tokenId <= nextId (sp w).

(** What every reachable state satisfies. *)
Record pool_inv (w : World) : Prop := mkInv {
  inv_apr : 0 <= aprBps (sp w) <= 5000;
  inv_next : 0 <= nextId (sp w) <= MAX_UINT256;
  inv_status : _status (sp w) = NOT_ENTERED;
  inv_pos : forall tokenId p,
    positions (sp w) !! tokenId = Some p ->
    created w tokenId /\ 0 <= principal p < 2 ^ 128 /\ 0 <= start p < 2 ^ 64
}.

(** What the body of a guarded function sees: the guard is entered. *)
Definition enter (w : World) : World :=
  set_sp (fun p => mkPool (pool_owner p) ENTERED (aprBps p) (nextId p) (positions p)) w.

(** ** Post-states

    The world a successful call leaves behind, written out field by field;
    the lemmas below show that the code produces exactly these. *)

Definition minted (to tokenId : Z) (uri : string) (w : World) : World :=
  mkWorld (sp w)
    (mkNft (nft_owner (nft w)) (pool (nft w))
       (<[tokenId := to]> (_owners (nft w)))
       (<[to := (slot (_balances (nft w)) to + 1) mod 2 ^ 256]> (_balances (nft w)))
       (_tokenApprovals (nft w))
       (if (String.length uri =? 0)%nat then _tokenURIs (nft w)
        else <[tokenId := uri]> (_tokenURIs (nft w))))
    (pool_address w) (balance w)
    (log w ++ Transfer 0 to tokenId ::
       (if (String.length uri =? 0)%nat then [] else [MetadataUpdate tokenId])).

Definition deposited (uri : string) (e : Env) (w : World) : World :=
  let tokenId := nextId (sp w) + 1 in
  mkWorld
    (mkPool (pool_owner (sp w)) NOT_ENTERED (aprBps (sp w)) tokenId
       (<[tokenId := mkPosition (uint128 (value e)) (uint64 (timestamp e)) true]>
          (positions (sp w))))
    (nft (minted (sender e) tokenId uri w))
    (pool_address w) (balance w + value e)
    (log w ++ Transfer 0 (sender e) tokenId ::
       (if (String.length uri =? 0)%nat then [] else [MetadataUpdate tokenId]) ++
       [Deposited tokenId (sender e) (value e)]).

(** ** A concrete deployment

    The administrator is account 100, the pool lives at address 200 and the
    ReceiptNFT is bound to it; the rate is 500 bps.  Account 7 is an
    ordinary account: it accepts certificates and value. *)

Definition plain_account (s v t : Z) : Env :=
  mkEnv s v t (fun _ => true) (fun _ w => Some w).

Definition nft_bound : NftStorage := mkNft 100 200 ∅ ∅ ∅ ∅.

Definition world0 : World :=
  mkWorld (mkPool 100 NOT_ENTERED 500 0 ∅) nft_bound 200 0 [].

(** Account 7 deposits 1,000,000 at time 0 and gets position 1. *)
Definition world1 : World := exec CallDeposit (plain_account 7 1000000 0) world0.

(** Account 7 deposits 1,000,000 at time 1000 instead. *)
Definition world_late : World :=
  exec CallDeposit (plain_account 7 1000000 1000) world0.


(** The world as the statements of [withdraw 1] that precede the
    computation of the payout leave it: guard entered, position 1 closed. *)
Definition world1_mid_withdraw : World :=
  set_sp (fun s =>
    mkPool (pool_owner s) ENTERED (aprBps s) (nextId s)
           (<[1 := mkPosition 1000000 0 false]> (positions s))) world1.


(** Running a list of calls, each in its own context. *)
Definition run (cs : list (Call * Env)) (w : World) : World :=
  fold_left (fun w ce => exec (fst ce) (snd ce) w) cs w.

(** Ids above the counter have never been written. *)
Definition ids_fresh (w : World) : Prop :=
  0 <= nextId (sp w) /\
  forall tokenId p, positions (sp w) !! tokenId = Some p -> created w tokenId.

(** The same deployment before [setPool] has been called: the ReceiptNFT
    is bound to no pool. *)
Definition world_unbound : World :=
  mkWorld (mkPool 100 NOT_ENTERED 500 0 ∅) (mkNft 100 0 ∅ ∅ ∅ ∅) 200 0 [].

(** A pool whose id counter has reached the largest [uint256]. *)
Definition world_exhausted : World :=
  mkWorld (mkPool 100 NOT_ENTERED 500 MAX_UINT256 ∅) nft_bound 200 0 [].

(** A contract at address [s] without the ERC721 receiver interface. *)
Definition non_receiver (s v t : Z) : Env :=
  mkEnv s v t (fun _ => false) (fun _ w => Some w).

(** Account 7 deposits 1,000,000 at time 0 with metadata. *)
Definition world_with_uri : World :=
  exec (CallDepositWithURI "ipfs://receipt") (plain_account 7 1000000 0) world0.

(** The sum of the principals of all recorded positions. *)
Definition total_principal (w : World) : Z :=
  map_fold (fun _ p acc => principal p + acc) 0 (positions (sp w)).

(** Every id handed out so far has a recorded position that is active. *)
Definition all_active (w : World) : Prop :=
  forall tokenId, created w tokenId ->
    exists p, positions (sp w) !! tokenId = Some p /\ active p = true.

Definition is_withdrawn (ev : Event) : bool :=
  match ev with Withdrawn _ _ _ => true | _ => false end.

(** * Properties *)

(** ** Reasoning about monadic code *)

Ltac sol_unfold :=
  cbv beta iota delta
    [mbind M_bind mret M_ret bind ret require revert gets ask
     modify emit msg_sender msg_value block_timestamp
     checked_add checked_sub checked_mul] in *.

Ltac proj_simpl :=
  cbn [sp nft pool_address balance log pool_owner _status aprBps nextId
       positions nft_owner pool _owners _balances _tokenApprovals _tokenURIs
       sender value timestamp accepts_receipt on_receive
       set_sp set_nft set_balance principal start active negb] in *.

Ltac zbool :=
  repeat match goal with
  | H : negb _ = true |- _ => apply negb_true_iff in H
  | H : negb _ = false |- _ => apply negb_false_iff in H
  | H : (_ <=? _) = true |- _ => apply Z.leb_le in H
  | H : (_ <=? _) = false |- _ => apply Z.leb_gt in H
  | H : (_ <? _) = true |- _ => apply Z.ltb_lt in H
  | H : (_ <? _) = false |- _ => apply Z.ltb_ge in H
  | H : (_ =? _) = true |- _ => apply Z.eqb_eq in H
  | H : (_ =? _) = false |- _ => apply Z.eqb_neq in H
  | H : bool_decide _ = true |- _ => apply bool_decide_eq_true in H
  | H : bool_decide _ = false |- _ => apply bool_decide_eq_false in H
  end.

(** ** setApr *)

(** C7. [setApr] fails whenever [bps] exceeds 5000, with the rate-too-high
    error when the caller is the owner, leaving the world (rate and log) as
    it was; called by the owner with at most 5000 it stores the new rate
    and appends [AprUpdated old new] to the log; any other caller fails as
    unauthorized and nothing changes. *)
Theorem setApr_spec (w : World) (e : Env) (bps : Z) :
  (5000 < bps ->
     exists err, transact (SavingsPool.setApr bps) e w = (w, Revert err) /\
       (sender e = pool_owner (sp w) -> err = AprTooHigh /\ kind err = RateTooHigh)) /\
  (sender e = pool_owner (sp w) -> bps <= 5000 ->
     exists w', transact (SavingsPool.setApr bps) e w = (w', Ok tt) /\
       aprBps (sp w') = bps /\
       log w' = log w ++ [AprUpdated (aprBps (sp w)) bps] /\
       pool_owner (sp w') = pool_owner (sp w) /\ nextId (sp w') = nextId (sp w) /\
       positions (sp w') = positions (sp w) /\ _status (sp w') = _status (sp w) /\
       nft w' = nft w /\ balance w' = balance w) /\
  (sender e <> pool_owner (sp w) ->
     transact (SavingsPool.setApr bps) e w = (w, Revert CallerNotOwner) /\
     kind CallerNotOwner = Unauthorized).
Proof.
  unfold transact, SavingsPool.setApr, SavingsPool.onlyOwner. sol_unfold.
  repeat split.
  - intros Hbps.
    destruct (pool_owner (sp w) =? sender e) eqn:Ho; zbool.
    + destruct (bps <=? 5000) eqn:Hb; zbool; [lia|].
      exists AprTooHigh. simpl. split; [reflexivity | intros _; split; reflexivity].
    + exists CallerNotOwner. simpl. split; [reflexivity | congruence].
  - intros Ho Hb. rewrite Ho, Z.eqb_refl. simpl.
    destruct (bps <=? 5000) eqn:Hb'; zbool; [|lia]. simpl.
    eexists. split; [reflexivity|]. simpl. repeat split; reflexivity.
  - destruct (pool_owner (sp w) =? sender e) eqn:Ho; zbool; [congruence|].
    reflexivity.
Qed.

(** ** Interest *)

Lemma accrued_unfold (tokenId : Z) (e : Env) (w : World) :
  SavingsPool.accrued tokenId e w =
  let p := position_of w tokenId in
  if active p then
    if start p <=? timestamp e then
      if principal p * aprBps (sp w) <=? MAX_UINT256 then
        if principal p * aprBps (sp w) * (timestamp e - start p) <=? MAX_UINT256
        then Ok (principal p * aprBps (sp w) * (timestamp e - start p)
                 / (365 * 86400 * 10000), w)
        else Revert ArithmeticPanic
      else Revert ArithmeticPanic
    else Revert ArithmeticPanic
  else Revert NotActive.
Proof.
  unfold SavingsPool.accrued. sol_unfold.
  destruct (active (position_of w tokenId)); [|reflexivity].
  destruct (start (position_of w tokenId) <=? timestamp e); [|reflexivity].
  destruct (principal (position_of w tokenId) * aprBps (sp w) <=? MAX_UINT256);
    [|reflexivity].
  destruct (principal (position_of w tokenId) * aprBps (sp w) *
            (timestamp e - start (position_of w tokenId)) <=? MAX_UINT256);
    reflexivity.
Qed.

(** A view never writes. *)
Lemma accrued_view (tokenId : Z) (e : Env) (w : World) a w' :
  SavingsPool.accrued tokenId e w = Ok (a, w') -> w' = w.
Proof.
  rewrite accrued_unfold. cbv zeta.
  repeat case_match; congruence.
Qed.

Lemma position_of_missing (w : World) (tokenId : Z) :
  positions (sp w) !! tokenId = None ->
  position_of w tokenId = mkPosition 0 0 false.
Proof.
  intros H. unfold position_of. rewrite lookup_total_alt, H. reflexivity.
Qed.

Lemma position_of_bounds (w : World) (tokenId : Z) :
  pool_inv w ->
  0 <= principal (position_of w tokenId) < 2 ^ 128 /\
  0 <= start (position_of w tokenId) < 2 ^ 64 /\
  (active (position_of w tokenId) = true -> created w tokenId).
Proof.
  intros Hinv. destruct (positions (sp w) !! tokenId) as [p|] eqn:Hp.
  - destruct (inv_pos w Hinv tokenId p Hp) as (Hc & Hpr & Hst).
    unfold position_of. rewrite lookup_total_alt, Hp. simpl. auto.
  - rewrite (position_of_missing w tokenId Hp). simpl.
    repeat split; try lia; discriminate.
Qed.

(** With a rate of at most 5000 bps, a 128-bit principal and a 64-bit
    elapsed time the two checked products stay below 2^256. *)
Lemma accrual_no_overflow (pr apr dt : Z) :
  0 <= pr < 2 ^ 128 -> 0 <= apr <= 5000 -> 0 <= dt < 2 ^ 64 ->
  0 <= pr * apr <= MAX_UINT256 /\ 0 <= pr * apr * dt <= MAX_UINT256.
Proof.
  intros Hp Ha Hd. unfold MAX_UINT256.
  assert (H1 : 0 <= pr * apr) by nia.
  assert (H2 : pr * apr <= 2 ^ 128 * 5000) by nia.
  assert (H3 : 0 <= pr * apr * dt) by nia.
  assert (H4 : pr * apr * dt <= 2 ^ 128 * 5000 * 2 ^ 64) by nia.
  assert (H5 : 2 ^ 128 * 5000 * 2 ^ 64 <= 2 ^ 256 - 1) by (vm_compute; discriminate).
  assert (H6 : 2 ^ 128 * 5000 <= 2 ^ 256 - 1) by (vm_compute; discriminate).
  lia.
Qed.

Lemma accrued_active (w : World) (e : Env) (tokenId : Z) :
  pool_inv w -> wf_env e ->
  active (position_of w tokenId) = true ->
  start (position_of w tokenId) <= timestamp e ->
  SavingsPool.accrued tokenId e w =
    Ok (principal (position_of w tokenId) * aprBps (sp w) *
        (timestamp e - start (position_of w tokenId)) / (31536000 * 10000), w).
Proof.
  intros Hinv (_ & _ & Hts) Hact Hle.
  destruct (position_of_bounds w tokenId Hinv) as (Hpr & Hst & _).
  destruct (accrual_no_overflow (principal (position_of w tokenId))
              (aprBps (sp w)) (timestamp e - start (position_of w tokenId)))
    as ((_ & Hm1) & (_ & Hm2)); [assumption | exact (inv_apr w Hinv) | lia |].
  rewrite accrued_unfold. cbv zeta. rewrite Hact.
  rewrite (proj2 (Z.leb_le _ _) Hle), (proj2 (Z.leb_le _ _) Hm1),
    (proj2 (Z.leb_le _ _) Hm2).
  reflexivity.
Qed.

Lemma accrued_inactive (w : World) (e : Env) (tokenId : Z) :
  active (position_of w tokenId) = false ->
  SavingsPool.accrued tokenId e w = Revert NotActive.
Proof. intros H. rewrite accrued_unfold. cbv zeta. rewrite H. reflexivity. Qed.

(** ** ReceiptNFT.mint *)

Lemma slot_insert_eq (m : gmap Z Z) (k v : Z) : slot (<[k := v]> m) k = v.
Proof. unfold slot. rewrite lookup_insert_eq. reflexivity. Qed.

(** The decision table of [mint]. *)
Lemma mint_unfold (to tokenId : Z) (uri : string) (e : Env) (w : World) :
  ReceiptNFT.mint to tokenId uri e w =
  if negb (sender e =? pool (nft w)) then Revert NotPool
  else if to =? 0 then Revert MintToZero
  else if negb (slot (_owners (nft w)) tokenId =? 0) then Revert AlreadyMinted
  else if negb (accepts_receipt e to) then Revert NonReceiver
  else Ok (tt, minted to tokenId uri w).
Proof.
  unfold ReceiptNFT.mint, ReceiptNFT.onlyPool, ERC721._safeMint, ERC721._mint,
    ERC721._checkOnERC721Received, ERC721URIStorage._setTokenURI,
    ERC721._exists, ERC721._ownerOf, minted, set_nft.
  sol_unfold.
  destruct (negb (sender e =? pool (nft w))); [reflexivity|].
  destruct (to =? 0) eqn:Hto; [reflexivity|]. cbn [negb].
  destruct (slot (_owners (nft w)) tokenId =? 0); [|reflexivity]. cbn [negb].
  destruct (accepts_receipt e to); [|reflexivity]. cbn [negb].
  destruct (String.length uri =? 0)%nat; cbn [negb]; [reflexivity|].
  cbn [nft _owners]. rewrite slot_insert_eq, Hto. cbn [negb].
  proj_simpl. rewrite <- app_assoc. reflexivity.
Qed.

(** ** deposit *)

(** The decision table of the two deposit entry points. *)
Lemma depositWithURI_unfold (uri : string) (e : Env) (w : World) :
  SavingsPool.depositWithURI uri e w =
  let tokenId := nextId (sp w) + 1 in
  if bool_decide (_status (sp w) = ENTERED) then Revert ReentrantCall
  else if negb (0 <? value e) then Revert AmountZero
  else if negb (tokenId <=? MAX_UINT256) then Revert ArithmeticPanic
  else if negb (pool_address w =? pool (nft w)) then Revert NotPool
  else if sender e =? 0 then Revert MintToZero
  else if negb (slot (_owners (nft w)) tokenId =? 0) then Revert AlreadyMinted
  else if negb (accepts_receipt e (sender e)) then Revert NonReceiver
  else Ok (tokenId, deposited uri e w).
Proof.
  unfold SavingsPool.depositWithURI, SavingsPool.payable, SavingsPool.nonReentrant,
    SavingsPool._depositWithURI, SavingsPool.set_status, SavingsPool.set_position,
    SavingsPool.call_receipt.
  sol_unfold. proj_simpl.
  destruct (bool_decide (_status (sp w) = ENTERED)); proj_simpl; [reflexivity|].
  destruct (0 <? value e); proj_simpl; [|reflexivity].
  destruct (nextId (sp w) + 1 <=? MAX_UINT256); proj_simpl; [|reflexivity].
  rewrite mint_unfold. proj_simpl.
  destruct (negb (pool_address w =? pool (nft w))); [reflexivity|].
  destruct (sender e =? 0); [reflexivity|].
  destruct (negb (slot (_owners (nft w)) (nextId (sp w) + 1) =? 0)); [reflexivity|].
  destruct (negb (accepts_receipt e (sender e))); [reflexivity|].
  unfold deposited, minted. proj_simpl. rewrite <- app_assoc. reflexivity.
Qed.

Lemma deposit_unfold (e : Env) (w : World) :
  SavingsPool.deposit e w = SavingsPool.depositWithURI EmptyString e w.
Proof. reflexivity. Qed.

Lemma depositWithURI_Ok (uri : string) (e : Env) (w : World) tokenId w' :
  SavingsPool.depositWithURI uri e w = Ok (tokenId, w') ->
  tokenId = nextId (sp w) + 1 /\ w' = deposited uri e w /\
  tokenId <= MAX_UINT256 /\ 0 < value e.
Proof.
  rewrite depositWithURI_unfold. cbv zeta.
  repeat case_match; try discriminate.
  intros [= <- <-]. zbool. auto.
Qed.

(** ** withdraw *)

(** The decision table of [withdraw]: the position is closed before
    [accrued] is called, and [accrued] insists on an active position, so
    the last branch aborts as well. *)
Lemma withdraw_unfold (tokenId : Z) (e : Env) (w : World) :
  SavingsPool.withdraw tokenId e w =
  if bool_decide (_status (sp w) = ENTERED) then Revert ReentrantCall
  else if negb (active (position_of w tokenId)) then Revert NotActive
  else if slot (_owners (nft w)) tokenId =? 0 then Revert InvalidTokenId
  else if negb (slot (_owners (nft w)) tokenId =? sender e) then Revert NotHolder
  else Revert NotActive.
Proof.
  unfold SavingsPool.withdraw, SavingsPool.nonReentrant, SavingsPool.set_status,
    SavingsPool.set_position, SavingsPool.call_receipt, ReceiptNFT.ownerOf,
    ERC721.ownerOf, ERC721._ownerOf.
  sol_unfold. proj_simpl.
  destruct (bool_decide (_status (sp w) = ENTERED)); proj_simpl; [reflexivity|].
  unfold position_of at 1 2. proj_simpl. fold (position_of w tokenId).
  destruct (active (position_of w tokenId)); proj_simpl; [|reflexivity].
  destruct (slot (_owners (nft w)) tokenId =? 0); proj_simpl; [reflexivity|].
  destruct (slot (_owners (nft w)) tokenId =? sender e); proj_simpl; [|reflexivity].
  rewrite accrued_inactive; [reflexivity|].
  unfold position_of. proj_simpl.
  rewrite lookup_total_insert_eq. reflexivity.
Qed.

Lemma withdraw_never_succeeds (tokenId : Z) (e : Env) (w : World) :
  exists err, SavingsPool.withdraw tokenId e w = Revert err.
Proof. rewrite withdraw_unfold. repeat case_match; eauto. Qed.

(** ** The invariant of reachable states *)

Lemma pool_inv_outside (w w' : World) :
  sp w' = sp w -> pool_inv w -> pool_inv w'.
Proof.
  intros Hsp [Ha Hn Hs Hp]. unfold created in *.
  split; unfold created; rewrite Hsp; assumption.
Qed.

Lemma uint128_range (x : Z) : 0 <= uint128 x < 2 ^ 128.
Proof. unfold uint128. apply Z.mod_pos_bound. reflexivity. Qed.

Lemma uint64_range (x : Z) : 0 <= uint64 x < 2 ^ 64.
Proof. unfold uint64. apply Z.mod_pos_bound. reflexivity. Qed.

Lemma pool_inv_deposited (uri : string) (e : Env) (w : World) :
  nextId (sp w) + 1 <= MAX_UINT256 ->
  pool_inv w -> pool_inv (deposited uri e w).
Proof.
  intros Hmax [Ha Hn Hs Hp].
  split; unfold created, deposited; proj_simpl; try lia; try reflexivity.
  intros tokenId p. rewrite lookup_insert.
  destruct (decide (nextId (sp w) + 1 = tokenId)) as [<-|Hne].
  - intros [= <-]. proj_simpl.
    pose proof (uint128_range (value e)). pose proof (uint64_range (timestamp e)).
    lia.
  - intros Hl. destruct (Hp tokenId p Hl) as (Hc & Hb). unfold created in Hc.
    split; [lia | exact Hb].
Qed.

Lemma setApr_unfold (bps : Z) (e : Env) (w : World) :
  SavingsPool.setApr bps e w =
  if negb (pool_owner (sp w) =? sender e) then Revert CallerNotOwner
  else if negb (bps <=? 5000) then Revert AprTooHigh
  else Ok (tt, mkWorld
             (mkPool (pool_owner (sp w)) (_status (sp w)) bps (nextId (sp w))
                     (positions (sp w)))
             (nft w) (pool_address w) (balance w)
             (log w ++ [AprUpdated (aprBps (sp w)) bps])).
Proof.
  unfold SavingsPool.setApr, SavingsPool.onlyOwner. sol_unfold.
  destruct (pool_owner (sp w) =? sender e); proj_simpl; [|reflexivity].
  destruct (bps <=? 5000); reflexivity.
Qed.

Lemma set_owner_sp (a : Z) (e : Env) (w : World) :
  exists w', SavingsPool.set_owner a e w = Ok (tt, w') /\
    sp w' = mkPool a (_status (sp w)) (aprBps (sp w)) (nextId (sp w))
                   (positions (sp w)).
Proof. eexists. split; reflexivity. Qed.

Lemma pool_inv_owner (a : Z) (w w' : World) :
  sp w' = mkPool a (_status (sp w)) (aprBps (sp w)) (nextId (sp w))
                 (positions (sp w)) ->
  pool_inv w -> pool_inv w'.
Proof.
  intros Hsp [Ha Hn Hs Hp].
  split; unfold created; rewrite Hsp; proj_simpl; assumption.
Qed.

Lemma pool_inv_exec (c : Call) (e : Env) (w : World) :
  wf_call c -> pool_inv w -> pool_inv (exec c e w).
Proof.
  intros Hc Hinv. destruct c as [bps| |uri|tokenId| |a|]; unfold exec, transact.
  - rewrite setApr_unfold.
    destruct (negb (pool_owner (sp w) =? sender e)); [exact Hinv|].
    destruct (negb (bps <=? 5000)) eqn:Hb; [exact Hinv|]. zbool.
    destruct Hinv as [Ha Hn Hs Hp]. cbn [wf_call] in Hc. cbn [fst].
    split; unfold created; proj_simpl; auto; lia.
  - rewrite deposit_unfold.
    destruct (SavingsPool.depositWithURI EmptyString e w) as [[id w']|err] eqn:Hd;
      [|exact Hinv].
    apply depositWithURI_Ok in Hd as (-> & -> & Hmax & _).
    simpl. apply pool_inv_deposited; assumption.
  - destruct (SavingsPool.depositWithURI uri e w) as [[id w']|err] eqn:Hd;
      [|exact Hinv].
    apply depositWithURI_Ok in Hd as (-> & -> & Hmax & _).
    simpl. apply pool_inv_deposited; assumption.
  - destruct (withdraw_never_succeeds tokenId e w) as [err ->]. exact Hinv.
  - exact Hinv.
  - unfold SavingsPool.transferOwnership, SavingsPool.onlyOwner. sol_unfold.
    destruct (pool_owner (sp w) =? sender e); [|exact Hinv].
    destruct (negb (a =? 0)); [|exact Hinv].
    destruct (set_owner_sp a e w) as (w' & Hw & Hsp).
    rewrite Hw. simpl. exact (pool_inv_owner a w w' Hsp Hinv).
  - unfold SavingsPool.renounceOwnership, SavingsPool.onlyOwner. sol_unfold.
    destruct (pool_owner (sp w) =? sender e); [|exact Hinv].
    destruct (set_owner_sp 0 e w) as (w' & Hw & Hsp).
    rewrite Hw. simpl. exact (pool_inv_owner 0 w w' Hsp Hinv).
Qed.

Lemma reachable_inv (w : World) : reachable w -> pool_inv w.
Proof.
  induction 1 as [apr deployer s n addr Hapr Hc | w c e _ IH Hc He | w w' _ IH Hsp _].
  - unfold SavingsPool.constructor in Hc.
    destruct (apr <=? 5000) eqn:Hle; [|discriminate]. zbool.
    injection Hc as <-.
    split; unfold created, MAX_UINT256; proj_simpl; try lia; try reflexivity.
    intros tokenId p Hl. rewrite lookup_empty in Hl. discriminate.
  - apply pool_inv_exec; assumption.
  - exact (pool_inv_outside w w' Hsp IH).
Qed.

(** ** accrued and payoutOf *)

Lemma world0_reachable : reachable world0.
Proof. apply (reach_deploy 500 100); [lia | reflexivity]. Qed.

Lemma plain_account_wf (s v t : Z) :
  0 <= s < 2 ^ 160 -> 0 <= v <= MAX_UINT256 -> 0 <= t < 2 ^ 64 ->
  wf_env (plain_account s v t).
Proof. intros. unfold wf_env. simpl. auto. Qed.

Lemma world1_reachable : reachable world1.
Proof.
  apply reach_call; [exact world0_reachable | exact I |].
  apply plain_account_wf; unfold MAX_UINT256; lia.
Qed.

(** C3. In a reachable state, for an active position and a clock that is
    not behind its start time, [accrued] returns
    principal * aprBps * (now - start) / (31536000 * 10000), the quotient
    being the floor (never more than the exact value); with 500 bps,
    principal 1,000,000 and 31,536,000 seconds elapsed this is 50,000.
    For a closed or missing position it fails with the not-active error. *)
Theorem accrued_spec (w : World) (e : Env) (tokenId : Z) :
  reachable w -> wf_env e ->
  let p := position_of w tokenId in
  let exact := principal p * aprBps (sp w) * (timestamp e - start p) in
  (active p = true -> start p <= timestamp e ->
     SavingsPool.accrued tokenId e w = Ok (exact / (31536000 * 10000), w) /\
     (exact / (31536000 * 10000) * (31536000 * 10000) <= exact) /\
     (exact < (exact / (31536000 * 10000) + 1) * (31536000 * 10000)) /\
     (aprBps (sp w) = 500 -> principal p = 1000000 ->
      timestamp e - start p = 31536000 ->
      SavingsPool.accrued tokenId e w = Ok (50000, w))) /\
  (active p = false ->
     SavingsPool.accrued tokenId e w = Revert NotActive /\
     kind NotActive = KNotActive) /\
  (positions (sp w) !! tokenId = None ->
     SavingsPool.accrued tokenId e w = Revert NotActive).
Proof.
  intros Hr He p exact. pose proof (reachable_inv w Hr) as Hinv.
  split; [|split].
  - intros Hact Hle. split; [|split; [|split]].
    + apply accrued_active; assumption.
    + pose proof (Z.mul_div_le exact (31536000 * 10000)). lia.
    + pose proof (Z.mod_pos_bound exact (31536000 * 10000)).
      pose proof (Z.div_mod exact (31536000 * 10000)). lia.
    + intros Hapr Hpr Hdt.
      rewrite accrued_active by assumption.
      fold p. rewrite Hapr, Hpr, Hdt. reflexivity.
  - intros Hact. split; [|reflexivity]. apply accrued_inactive. assumption.
  - intros Hmiss. apply accrued_inactive.
    rewrite (position_of_missing w tokenId Hmiss). reflexivity.
Qed.

Lemma accrued_spec_witness :
  SavingsPool.accrued 1 (plain_account 7 0 31536000) world1 = Ok (50000, world1) /\
  SavingsPool.accrued 2 (plain_account 7 0 31536000) world1 = Revert NotActive.
Proof.
  pose proof (accrued_spec world1 (plain_account 7 0 31536000) 1
                world1_reachable
                (plain_account_wf 7 0 31536000 ltac:(lia)
                   ltac:(unfold MAX_UINT256; lia) ltac:(lia))) as H1.
  pose proof (accrued_spec world1 (plain_account 7 0 31536000) 2
                world1_reachable
                (plain_account_wf 7 0 31536000 ltac:(lia)
                   ltac:(unfold MAX_UINT256; lia) ltac:(lia))) as H2.
  cbv zeta in H1, H2.
  destruct H1 as (H1 & _ & _). destruct H2 as (_ & _ & H2).
  split.
  - destruct H1 as (_ & _ & _ & H1); [reflexivity | vm_compute; discriminate |].
    apply H1; reflexivity.
  - apply H2. reflexivity.
Defined.

(** C10. When the clock is strictly behind the start time of an active
    position, [accrued] aborts on the checked subtraction: it neither
    returns zero nor a wrapped value. *)
Theorem accrued_clock_regression (w : World) (e : Env) (tokenId : Z) :
  active (position_of w tokenId) = true ->
  timestamp e < start (position_of w tokenId) ->
  SavingsPool.accrued tokenId e w = Revert ArithmeticPanic.
Proof.
  intros Hact Hlt. rewrite accrued_unfold. cbv zeta. rewrite Hact.
  rewrite (proj2 (Z.leb_gt _ _) Hlt). reflexivity.
Qed.

Lemma accrued_clock_regression_witness :
  SavingsPool.accrued 1 (plain_account 7 0 999) world_late = Revert ArithmeticPanic.
Proof.
  apply accrued_clock_regression; [reflexivity | vm_compute; reflexivity].
Defined.

Lemma payoutOf_unfold (tokenId : Z) (e : Env) (w : World) :
  SavingsPool.payoutOf tokenId e w =
  if active (position_of w tokenId) then
    match SavingsPool.accrued tokenId e w with
    | Ok (a, w1) =>
        if principal (position_of w tokenId) + a <=? MAX_UINT256
        then Ok (principal (position_of w tokenId) + a, w1)
        else Revert ArithmeticPanic
    | Revert err => Revert err
    end
  else Revert NotActive.
Proof.
  unfold SavingsPool.payoutOf. sol_unfold.
  destruct (active (position_of w tokenId)); [|reflexivity].
  destruct (SavingsPool.accrued tokenId e w) as [[a w1]|err]; [|reflexivity].
  destruct (principal (position_of w tokenId) + a <=? MAX_UINT256); reflexivity.
Qed.

(** Whatever [accrued] returns leaves room for a 128-bit principal. *)
Lemma accrued_bound (tokenId : Z) (e : Env) (w : World) a w' :
  SavingsPool.accrued tokenId e w = Ok (a, w') ->
  a <= MAX_UINT256 / (31536000 * 10000).
Proof.
  rewrite accrued_unfold. cbv zeta.
  repeat case_match; try discriminate.
  intros [= <- <-]. zbool.
  apply Z.div_le_mono; [lia | assumption].
Qed.

Lemma payoutOf_accrued (w : World) (e : Env) (tokenId : Z) :
  pool_inv w ->
  SavingsPool.payoutOf tokenId e w =
  match SavingsPool.accrued tokenId e w with
  | Ok (a, _) => Ok (principal (position_of w tokenId) + a, w)
  | Revert err => Revert err
  end.
Proof.
  intros Hinv. rewrite payoutOf_unfold.
  destruct (position_of_bounds w tokenId Hinv) as (Hpr & _ & _).
  destruct (active (position_of w tokenId)) eqn:Hact.
  - destruct (SavingsPool.accrued tokenId e w) as [[a w1]|err] eqn:Ha; [|reflexivity].
    pose proof (accrued_bound _ _ _ _ _ Ha) as Hb.
    apply accrued_view in Ha as ->.
    assert (Hroom : MAX_UINT256 / (31536000 * 10000) + 2 ^ 128 <= MAX_UINT256)
      by (vm_compute; discriminate).
    rewrite (proj2 (Z.leb_le _ _)) by lia. reflexivity.
  - rewrite accrued_inactive by assumption. reflexivity.
Qed.

(** Right after a deposit, at the same clock value, no time has elapsed. *)
Lemma payoutOf_fresh_deposit (w : World) (e e' : Env) (uri : string) :
  pool_inv w -> wf_env e -> timestamp e' = timestamp e ->
  nextId (sp w) + 1 <= MAX_UINT256 ->
  position_of (deposited uri e w) (nextId (sp w) + 1) =
    mkPosition (uint128 (value e)) (timestamp e) true /\
  SavingsPool.payoutOf (nextId (sp w) + 1) e' (deposited uri e w) =
    Ok (uint128 (value e), deposited uri e w).
Proof.
  intros Hinv He Hts Hmax.
  assert (Hinv' : pool_inv (deposited uri e w))
    by (apply pool_inv_deposited; assumption).
  assert (Hu : uint64 (timestamp e) = timestamp e).
  { unfold uint64. apply Z.mod_small. destruct He as (_ & _ & Ht). exact Ht. }
  assert (Hp : position_of (deposited uri e w) (nextId (sp w) + 1) =
               mkPosition (uint128 (value e)) (timestamp e) true).
  { unfold position_of, deposited. proj_simpl.
    rewrite lookup_total_insert_eq, Hu. reflexivity. }
  split; [exact Hp|].
  rewrite payoutOf_accrued by assumption.
  rewrite accrued_unfold. cbv zeta. rewrite Hp. proj_simpl.
  rewrite Hts, Z.leb_refl, Z.sub_diag, Z.mul_0_r.
  pose proof (uint128_range (value e)) as Hr.
  destruct (inv_apr w Hinv) as (Ha1 & Ha2).
  change (aprBps (sp (deposited uri e w))) with (aprBps (sp w)).
  assert (Hm : uint128 (value e) * aprBps (sp w) <= MAX_UINT256).
  { destruct (accrual_no_overflow (uint128 (value e)) (aprBps (sp w)) 0)
      as ((_ & H) & _); [assumption | lia | lia | exact H]. }
  rewrite (proj2 (Z.leb_le _ _) Hm).
  change (0 <=? MAX_UINT256) with true. cbn iota.
  rewrite Z.div_0_l by lia. rewrite Z.add_0_r. reflexivity.
Qed.

(** C5. In a reachable state [payoutOf] is the principal plus what
    [accrued] returns, and fails exactly when [accrued] fails, with the
    same error: the not-active error exactly for a closed or missing
    position.  Right after a successful deposit, at the same clock value,
    [payoutOf] of the new position is its principal, which is the amount
    deposited when that fits 128 bits. *)
Theorem payoutOf_spec (w : World) (e : Env) (tokenId : Z) :
  reachable w -> wf_env e ->
  (forall a w', SavingsPool.accrued tokenId e w = Ok (a, w') ->
     SavingsPool.payoutOf tokenId e w =
       Ok (principal (position_of w tokenId) + a, w)) /\
  (forall err, SavingsPool.payoutOf tokenId e w = Revert err <->
               SavingsPool.accrued tokenId e w = Revert err) /\
  (SavingsPool.payoutOf tokenId e w = Revert NotActive <->
     active (position_of w tokenId) = false) /\
  (forall uri e' w',
     wf_env e' -> timestamp e' = timestamp e ->
     SavingsPool.depositWithURI uri e w = Ok (tokenId, w') ->
     SavingsPool.payoutOf tokenId e' w' = Ok (principal (position_of w' tokenId), w') /\
     principal (position_of w' tokenId) = uint128 (value e) /\
     (value e < 2 ^ 128 -> principal (position_of w' tokenId) = value e)).
Proof.
  intros Hr He. pose proof (reachable_inv w Hr) as Hinv.
  split; [|split; [|split]].
  - intros a w' Ha. rewrite payoutOf_accrued, Ha by assumption. reflexivity.
  - intros err. rewrite payoutOf_accrued by assumption.
    destruct (SavingsPool.accrued tokenId e w) as [[a w1]|err']; split; congruence.
  - rewrite payoutOf_accrued by assumption. rewrite accrued_unfold. cbv zeta.
    destruct (active (position_of w tokenId)); [|tauto].
    repeat case_match; split; congruence.
  - intros uri e' w' He' Hts Hd.
    apply depositWithURI_Ok in Hd as (-> & -> & Hmax & Hv).
    destruct (payoutOf_fresh_deposit w e e' uri Hinv He Hts Hmax) as (Hp & Hpay).
    rewrite Hpay, Hp. proj_simpl.
    split; [reflexivity|]. split; [reflexivity|].
    intros Hsmall. unfold uint128. apply Z.mod_small. lia.
Qed.

Lemma deposit_world0 :
  SavingsPool.depositWithURI EmptyString (plain_account 7 1000000 0) world0 =
  Ok (1, world1).
Proof. vm_compute. reflexivity. Qed.

Lemma accrued_world1_year :
  SavingsPool.accrued 1 (plain_account 7 0 31536000) world1 = Ok (50000, world1).
Proof. vm_compute. reflexivity. Qed.

Lemma payoutOf_spec_witness :
  SavingsPool.payoutOf 1 (plain_account 7 0 31536000) world1 = Ok (1050000, world1) /\
  SavingsPool.payoutOf 1 (plain_account 9 0 0) world1 = Ok (1000000, world1).
Proof.
  split.
  - destruct (payoutOf_spec world1 (plain_account 7 0 31536000) 1
                world1_reachable
                (plain_account_wf 7 0 31536000 ltac:(lia)
                   ltac:(unfold MAX_UINT256; lia) ltac:(lia))) as (H & _).
    exact (H 50000 world1 accrued_world1_year).
  - destruct (payoutOf_spec world0 (plain_account 7 1000000 0) 1
                world0_reachable
                (plain_account_wf 7 1000000 0 ltac:(lia)
                   ltac:(unfold MAX_UINT256; lia) ltac:(lia))) as (_ & _ & _ & H).
    destruct (H EmptyString (plain_account 9 0 0) world1
                (plain_account_wf 9 0 0 ltac:(lia)
                   ltac:(unfold MAX_UINT256; lia) ltac:(lia))
                eq_refl deposit_world0) as (Hp & _).
    exact Hp.
Defined.

(** ** withdraw *)

(** C1. The code does not do what the claim says: called by the holder of
    the certificate of an active position, outside any guarded call,
    [withdraw] closes the position and then asks [accrued] for the
    interest, which refuses a closed position; the call aborts with the
    not-active error and the world is left as it was.  Nothing is burned,
    transferred or logged. *)
Theorem withdraw_by_holder_aborts (w : World) (e : Env) (tokenId : Z) :
  _status (sp w) = NOT_ENTERED ->
  active (position_of w tokenId) = true ->
  slot (_owners (nft w)) tokenId = sender e ->
  sender e <> 0 ->
  transact (SavingsPool.withdraw tokenId) e w = (w, Revert NotActive).
Proof.
  intros Hst Hact Hown Hnz. unfold transact. rewrite withdraw_unfold.
  rewrite Hst, Hact, Hown. proj_simpl.
  rewrite bool_decide_eq_false_2 by discriminate.
  rewrite (proj2 (Z.eqb_neq _ _) Hnz), Z.eqb_refl. reflexivity.
Qed.

Lemma withdraw_by_holder_aborts_witness :
  transact (SavingsPool.withdraw 1) (plain_account 7 0 31536000) world1 =
  (world1, Revert NotActive).
Proof.
  apply withdraw_by_holder_aborts;
    [reflexivity | reflexivity | reflexivity | vm_compute; discriminate].
Defined.


Lemma nonReentrant_unfold {A} (body : M A) (e : Env) (w : World) :
  SavingsPool.nonReentrant body e w =
  if bool_decide (_status (sp w) = ENTERED) then Revert ReentrantCall
  else match body e (enter w) with
       | Ok (a, w') =>
           Ok (a, set_sp (fun p => mkPool (pool_owner p) NOT_ENTERED (aprBps p)
                                          (nextId p) (positions p)) w')
       | Revert err => Revert err
       end.
Proof.
  unfold SavingsPool.nonReentrant, SavingsPool.set_status, enter. sol_unfold.
  destruct (bool_decide (_status (sp w) = ENTERED)); proj_simpl; [reflexivity|].
  destruct (body e _) as [[a w']|err]; reflexivity.
Qed.

(** ** The life of a position *)

(** A call either leaves the positions and the id counter alone or is a
    successful deposit. *)
Lemma exec_cases (c : Call) (e : Env) (w : World) :
  (positions (sp (exec c e w)) = positions (sp w) /\
   nextId (sp (exec c e w)) = nextId (sp w)) \/
  (exists uri, exec c e w = deposited uri e w).
Proof.
  destruct c as [bps| |uri|tokenId| |a|]; unfold exec, transact.
  - left. rewrite setApr_unfold.
    destruct (negb (pool_owner (sp w) =? sender e)); [split; reflexivity|].
    destruct (negb (bps <=? 5000)); split; reflexivity.
  - rewrite deposit_unfold.
    destruct (SavingsPool.depositWithURI EmptyString e w) as [[id w']|err] eqn:Hd.
    + right. apply depositWithURI_Ok in Hd as (_ & -> & _). eauto.
    + left. split; reflexivity.
  - destruct (SavingsPool.depositWithURI uri e w) as [[id w']|err] eqn:Hd.
    + right. apply depositWithURI_Ok in Hd as (_ & -> & _). eauto.
    + left. split; reflexivity.
  - left. destruct (withdraw_never_succeeds tokenId e w) as [err ->].
    split; reflexivity.
  - left. split; reflexivity.
  - left. unfold SavingsPool.transferOwnership, SavingsPool.onlyOwner,
      SavingsPool.set_owner. sol_unfold.
    destruct (pool_owner (sp w) =? sender e); [|split; reflexivity].
    destruct (negb (a =? 0)); split; reflexivity.
  - left. unfold SavingsPool.renounceOwnership, SavingsPool.onlyOwner,
      SavingsPool.set_owner. sol_unfold.
    destruct (pool_owner (sp w) =? sender e); split; reflexivity.
Qed.

Lemma ids_fresh_exec (c : Call) (e : Env) (w : World) :
  ids_fresh w -> ids_fresh (exec c e w).
Proof.
  intros [Hn Hf]. destruct (exec_cases c e w) as [(Hp & Hn') | (uri & ->)].
  - split; [lia|]. intros tokenId p. unfold created. rewrite Hp, Hn'. apply Hf.
  - split; [unfold deposited; proj_simpl; lia|].
    intros tokenId p. unfold created, deposited. proj_simpl.
    rewrite lookup_insert. case_decide as Hd.
    + intros _. lia.
    + intros Hl. specialize (Hf _ _ Hl). unfold created in Hf. lia.
Qed.

Lemma reachable_ids_fresh (w : World) : reachable w -> ids_fresh w.
Proof.
  intros Hr. destruct (reachable_inv w Hr) as [_ Hn _ Hp].
  split; [lia|]. intros tokenId p Hl. apply (Hp tokenId p Hl).
Qed.

Lemma not_created_inactive (w : World) (tokenId : Z) :
  ids_fresh w -> ~ created w tokenId ->
  position_of w tokenId = mkPosition 0 0 false.
Proof.
  intros [_ Hf] Hnc. apply position_of_missing.
  destruct (positions (sp w) !! tokenId) as [p|] eqn:Hp; [|reflexivity].
  destruct Hnc. exact (Hf _ _ Hp).
Qed.

(** One call: a created position keeps its principal and start time and,
    once closed, stays closed; an id that comes into being is active. *)
Lemma lifecycle_step (c : Call) (e : Env) (w : World) (tokenId : Z) :
  ids_fresh w ->
  (created w tokenId ->
     created (exec c e w) tokenId /\
     principal (position_of (exec c e w) tokenId) = principal (position_of w tokenId) /\
     start (position_of (exec c e w) tokenId) = start (position_of w tokenId) /\
     (active (position_of w tokenId) = false ->
      active (position_of (exec c e w) tokenId) = false)) /\
  (~ created w tokenId -> created (exec c e w) tokenId ->
     active (position_of (exec c e w) tokenId) = true).
Proof.
  intros [Hn Hf]. unfold position_of, created.
  destruct (exec_cases c e w) as [(Hp & Hn') | (uri & ->)].
  - rewrite Hp, Hn'. split; [auto | tauto].
  - unfold deposited. proj_simpl. split.
    + intros Hc. rewrite lookup_total_insert_ne by lia.
      split; [lia | auto].
    + intros Hnc Hc. assert (tokenId = nextId (sp w) + 1) as -> by lia.
      rewrite lookup_total_insert_eq. reflexivity.
Qed.

Lemma lifecycle_run (cs : list (Call * Env)) (w : World) (tokenId : Z) :
  ids_fresh w -> created w tokenId ->
  created (run cs w) tokenId /\
  principal (position_of (run cs w) tokenId) = principal (position_of w tokenId) /\
  start (position_of (run cs w) tokenId) = start (position_of w tokenId) /\
  (active (position_of w tokenId) = false ->
   active (position_of (run cs w) tokenId) = false).
Proof.
  revert w. induction cs as [|[c e] cs IH]; intros w Hf Hc; [auto|].
  destruct (lifecycle_step c e w tokenId Hf) as (Hstep & _).
  destruct (Hstep Hc) as (Hc1 & Hp1 & Hs1 & Ha1).
  destruct (IH (exec c e w) (ids_fresh_exec c e w Hf) Hc1) as (Hc2 & Hp2 & Hs2 & Ha2).
  change (run ((c, e) :: cs) w) with (run cs (exec c e w)).
  split; [assumption|]. split; [congruence|]. split; [congruence | auto].
Qed.

(** C4. From a reachable state, whatever calls follow: a position that has
    been created keeps its principal and its start time, remains created,
    and once its active flag is false it stays false; an id that has not
    been created reads as inactive, and when a call creates it, it is
    active.  So a position goes from nonexistent to active to closed, at
    most once each, and never back. *)
Theorem position_lifecycle (w : World) (cs : list (Call * Env)) (c : Call)
    (e : Env) (tokenId : Z) :
  reachable w ->
  (created w tokenId ->
     created (run cs w) tokenId /\
     principal (position_of (run cs w) tokenId) = principal (position_of w tokenId) /\
     start (position_of (run cs w) tokenId) = start (position_of w tokenId) /\
     (active (position_of w tokenId) = false ->
      active (position_of (run cs w) tokenId) = false)) /\
  (~ created w tokenId ->
     active (position_of w tokenId) = false /\
     (created (exec c e w) tokenId ->
      active (position_of (exec c e w) tokenId) = true)).
Proof.
  intros Hr. pose proof (reachable_ids_fresh w Hr) as Hf. split.
  - intros Hc. apply lifecycle_run; assumption.
  - intros Hnc. split.
    + rewrite (not_created_inactive w tokenId Hf Hnc). reflexivity.
    + apply (lifecycle_step c e w tokenId Hf). exact Hnc.
Qed.

Lemma world1_nextId : nextId (sp world1) = 1.
Proof. reflexivity. Qed.

Lemma position_lifecycle_witness :
  principal (position_of
    (run [(CallWithdraw 1, plain_account 7 0 50);
          (CallDeposit, plain_account 8 300 60);
          (CallSetApr 100, plain_account 100 0 70)] world1) 1)
    = principal (position_of world1 1) /\
  active (position_of (exec CallDeposit (plain_account 8 300 60) world1) 2) = true.
Proof.
  split.
  - apply (position_lifecycle world1 _ CallReceive (plain_account 7 0 50) 1
             world1_reachable).
    unfold created. rewrite world1_nextId. lia.
  - apply (position_lifecycle world1 [] CallDeposit (plain_account 8 300 60) 2
             world1_reachable).
    + unfold created. rewrite world1_nextId. lia.
    + unfold created. vm_compute. split; discriminate.
Defined.

(** ** deposit *)

(** C6. Outside a guarded call, a deposit that carries no value fails with
    the zero-amount error and leaves the world as it was: no position is
    written and the id counter keeps its value, so a deposit that follows
    behaves as it would have without the failed call, and when it
    succeeds it receives the id after the counter. *)
Theorem deposit_zero_amount (w : World) (e : Env) (uri : string) :
  value e = 0 -> _status (sp w) = NOT_ENTERED ->
  transact SavingsPool.deposit e w = (w, Revert AmountZero) /\
  transact (SavingsPool.depositWithURI uri) e w = (w, Revert AmountZero) /\
  kind AmountZero = ZeroAmount /\
  (forall e' uri',
     SavingsPool.depositWithURI uri' e' (fst (transact SavingsPool.deposit e w)) =
     SavingsPool.depositWithURI uri' e' w) /\
  (forall e' uri' tokenId w',
     SavingsPool.depositWithURI uri' e' (fst (transact SavingsPool.deposit e w))
       = Ok (tokenId, w') ->
     tokenId = nextId (sp w) + 1).
Proof.
  intros Hv Hst.
  assert (Hd : forall u, SavingsPool.depositWithURI u e w = Revert AmountZero).
  { intros u. rewrite depositWithURI_unfold. cbv zeta. rewrite Hst, Hv.
    rewrite bool_decide_eq_false_2 by discriminate. reflexivity. }
  assert (Hw : fst (transact SavingsPool.deposit e w) = w).
  { unfold transact. rewrite deposit_unfold, Hd. reflexivity. }
  split; [|split; [|split; [|split]]].
  - unfold transact. rewrite deposit_unfold, Hd. reflexivity.
  - unfold transact. rewrite Hd. reflexivity.
  - reflexivity.
  - intros e' uri'. rewrite Hw. reflexivity.
  - intros e' uri' tokenId w'. rewrite Hw. intros H.
    apply depositWithURI_Ok in H. tauto.
Qed.

Lemma deposit_zero_amount_witness :
  transact SavingsPool.deposit (plain_account 8 0 60) world1
    = (world1, Revert AmountZero) /\
  SavingsPool.depositWithURI EmptyString (plain_account 8 300 60)
    (fst (transact SavingsPool.deposit (plain_account 8 0 60) world1))
    = Ok (2, deposited EmptyString (plain_account 8 300 60) world1).
Proof.
  destruct (deposit_zero_amount world1 (plain_account 8 0 60) EmptyString
              eq_refl eq_refl) as (H1 & _ & _ & H2 & _).
  split; [exact H1|]. rewrite H2. vm_compute. reflexivity.
Defined.

(** C9. A deposit of at least 2^128 is accepted whenever a deposit is
    accepted at all, and the principal it records is the amount modulo
    2^128, strictly less than the amount; the payout of the new position is
    computed from that principal. *)
Theorem deposit_truncates_principal (w : World) (e : Env) (uri : string) :
  reachable w -> wf_env e ->
  2 ^ 128 <= value e ->
  nextId (sp w) + 1 <= MAX_UINT256 ->
  pool (nft w) = pool_address w ->
  sender e <> 0 ->
  slot (_owners (nft w)) (nextId (sp w) + 1) = 0 ->
  accepts_receipt e (sender e) = true ->
  exists w',
    SavingsPool.depositWithURI uri e w = Ok (nextId (sp w) + 1, w') /\
    principal (position_of w' (nextId (sp w) + 1)) = value e mod 2 ^ 128 /\
    principal (position_of w' (nextId (sp w) + 1)) < value e /\
    SavingsPool.payoutOf (nextId (sp w) + 1) e w' = Ok (value e mod 2 ^ 128, w').
Proof.
  intros Hr He Hbig Hmax Hpool Hnz Hfree Hacc.
  assert (Hd : SavingsPool.depositWithURI uri e w =
               Ok (nextId (sp w) + 1, deposited uri e w)).
  { rewrite depositWithURI_unfold. cbv zeta.
    rewrite (reachable_inv w Hr).(inv_status w).
    rewrite bool_decide_eq_false_2 by discriminate.
    rewrite (proj2 (Z.ltb_lt 0 (value e))) by lia.
    rewrite (proj2 (Z.leb_le _ _) Hmax), Hpool, Z.eqb_refl,
      (proj2 (Z.eqb_neq _ _) Hnz), Hfree, Hacc.
    reflexivity. }
  destruct (payoutOf_fresh_deposit w e e uri (reachable_inv w Hr) He eq_refl Hmax)
    as (Hp & Hpay).
  exists (deposited uri e w). rewrite Hpay, Hp. proj_simpl. unfold uint128.
  split; [exact Hd|]. split; [reflexivity|]. split; [|reflexivity].
  pose proof (Z.mod_pos_bound (value e) (2 ^ 128) ltac:(reflexivity)). lia.
Qed.

Lemma deposit_truncates_principal_witness :
  exists w',
    SavingsPool.depositWithURI EmptyString (plain_account 7 (2 ^ 128 + 5) 0) world0
      = Ok (1, w') /\
    principal (position_of w' 1) = 5.
Proof.
  destruct (deposit_truncates_principal world0 (plain_account 7 (2 ^ 128 + 5) 0)
              EmptyString world0_reachable
              (plain_account_wf 7 (2 ^ 128 + 5) 0 ltac:(lia)
                 ltac:(unfold MAX_UINT256; lia) ltac:(lia))
              ltac:(simpl; lia) ltac:(vm_compute; discriminate) eq_refl
              ltac:(vm_compute; discriminate) eq_refl eq_refl)
    as (w' & Hd & Hp & _).
  exists w'. split; [exact Hd | exact Hp].
Defined.

(** ** ReceiptNFT.mint, continued *)




(** ** setApr, continued *)

Lemma setApr_spec_witness :
  transact (SavingsPool.setApr 6000) (plain_account 100 0 0) world1
    = (world1, Revert AprTooHigh) /\
  transact (SavingsPool.setApr 6000) (plain_account 7 0 0) world1
    = (world1, Revert CallerNotOwner) /\
  exists w',
    transact (SavingsPool.setApr 700) (plain_account 100 0 0) world1 = (w', Ok tt) /\
    aprBps (sp w') = 700 /\
    log w' = log world1 ++ [AprUpdated 500 700].
Proof.
  split; [|split].
  - destruct (setApr_spec world1 (plain_account 100 0 0) 6000) as (H & _).
    destruct H as (err & Ht & Herr); [lia|].
    destruct Herr as (-> & _); [reflexivity|]. exact Ht.
  - apply (setApr_spec world1 (plain_account 7 0 0) 6000).
    vm_compute. discriminate.
  - destruct (setApr_spec world1 (plain_account 100 0 0) 700) as (_ & H & _).
    destruct H as (w' & Ht & Ha & Hl & _); [reflexivity | lia |].
    exists w'. split; [exact Ht|]. split; [exact Ha | exact Hl].
Defined.

(** * Further properties of the two contracts *)

(** ** What a call can do to the world *)

(** Every call of the pool either changes nothing, or is a successful
    deposit, or stores a new rate, or hands the pool to a new owner. *)
Lemma exec_shape (c : Call) (e : Env) (w : World) :
  exec c e w = w \/
  (exists uri, exec c e w = deposited uri e w /\ 0 < value e /\
               SavingsPool.depositWithURI uri e w = Ok (nextId (sp w) + 1, deposited uri e w)) \/
  (exists bps, bps <= 5000 /\ sender e = pool_owner (sp w) /\
     exec c e w =
       mkWorld (mkPool (pool_owner (sp w)) (_status (sp w)) bps (nextId (sp w))
                       (positions (sp w)))
               (nft w) (pool_address w) (balance w)
               (log w ++ [AprUpdated (aprBps (sp w)) bps])) \/
  (exists a, sender e = pool_owner (sp w) /\
     exec c e w =
       mkWorld (mkPool a (_status (sp w)) (aprBps (sp w)) (nextId (sp w))
                       (positions (sp w)))
               (nft w) (pool_address w) (balance w)
               (log w ++ [OwnershipTransferred (pool_owner (sp w)) a])).
Proof.
  destruct c as [bps| |uri|tokenId| |a|]; unfold exec, transact.
  - rewrite setApr_unfold.
    destruct (negb (pool_owner (sp w) =? sender e)) eqn:Ho; [left; reflexivity|].
    destruct (negb (bps <=? 5000)) eqn:Hb; [left; reflexivity|]. zbool.
    right; right; left. exists bps. auto.
  - rewrite deposit_unfold.
    destruct (SavingsPool.depositWithURI EmptyString e w) as [[id w']|err] eqn:Hd;
      [|left; reflexivity].
    right; left. exists EmptyString.
    destruct (depositWithURI_Ok _ _ _ _ _ Hd) as (-> & -> & _ & Hv). auto.
  - destruct (SavingsPool.depositWithURI uri e w) as [[id w']|err] eqn:Hd;
      [|left; reflexivity].
    right; left. exists uri.
    destruct (depositWithURI_Ok _ _ _ _ _ Hd) as (-> & -> & _ & Hv). auto.
  - left. destruct (withdraw_never_succeeds tokenId e w) as [err ->]. reflexivity.
  - left. reflexivity.
  - unfold SavingsPool.transferOwnership, SavingsPool.onlyOwner,
      SavingsPool.set_owner. sol_unfold.
    destruct (pool_owner (sp w) =? sender e) eqn:Ho; [|left; reflexivity].
    destruct (negb (a =? 0)); [|left; reflexivity]. zbool.
    right; right; right. exists a. auto.
  - unfold SavingsPool.renounceOwnership, SavingsPool.onlyOwner,
      SavingsPool.set_owner. sol_unfold.
    destruct (pool_owner (sp w) =? sender e) eqn:Ho; [|left; reflexivity]. zbool.
    right; right; right. exists 0. auto.
Qed.

Lemma run_cons (c : Call) (e : Env) (cs : list (Call * Env)) (w : World) :
  run ((c, e) :: cs) w = run cs (exec c e w).
Proof. reflexivity. Qed.

Lemma run_app (cs1 cs2 : list (Call * Env)) (w : World) :
  run (cs1 ++ cs2) w = run cs2 (run cs1 w).
Proof. unfold run. apply fold_left_app. Qed.

(** ** The rate *)

(** X1. The constructor refuses a rate above 5000 bps, and no reachable
    state has a rate outside 0..5000: [setApr] is the only writer and
    checks the same ceiling. *)
Theorem rate_never_above_ceiling (w : World) :
  reachable w ->
  0 <= aprBps (sp w) <= 5000 /\
  (forall apr deployer, 5000 < apr ->
     SavingsPool.constructor apr deployer = Revert AprTooHigh).
Proof.
  intros Hr. split; [exact (inv_apr w (reachable_inv w Hr))|].
  intros apr deployer Hbig. unfold SavingsPool.constructor.
  rewrite (proj2 (Z.leb_gt _ _) Hbig). reflexivity.
Qed.

Lemma rate_never_above_ceiling_witness :
  0 <= aprBps (sp (exec (CallSetApr 5000) (plain_account 100 0 6)
                     (exec (CallSetApr 6000) (plain_account 100 0 5) world1))) <= 5000.
Proof.
  apply rate_never_above_ceiling.
  assert (He : forall t, 0 <= t < 2 ^ 64 -> wf_env (plain_account 100 0 t)).
  { intros t Ht. apply plain_account_wf; unfold MAX_UINT256; lia. }
  apply reach_call; [apply reach_call; [exact world1_reachable | |] | |].
  - cbn [wf_call]. unfold MAX_UINT256. lia.
  - apply He. lia.
  - cbn [wf_call]. unfold MAX_UINT256. lia.
  - apply He. lia.
Defined.

(** ** Position ids *)

Lemma nextId_exec (c : Call) (e : Env) (w : World) :
  nextId (sp w) <= nextId (sp (exec c e w)) <= nextId (sp w) + 1.
Proof.
  destruct (exec_shape c e w) as [-> | [(uri & -> & _) | [(bps & _ & _ & ->) | (a & _ & ->)]]];
    unfold deposited; proj_simpl; lia.
Qed.

Lemma nextId_run (cs : list (Call * Env)) (w : World) :
  nextId (sp w) <= nextId (sp (run cs w)) <= nextId (sp w) + Z.of_nat (length cs).
Proof.
  revert w. induction cs as [|[c e] cs IH]; intros w; [simpl; lia|].
  rewrite run_cons. specialize (IH (exec c e w)).
  pose proof (nextId_exec c e w). cbn [length]. lia.
Qed.

(** X2. Ids are handed out in increasing order and never twice: a deposit
    that succeeds after any run of calls following an earlier successful
    deposit receives a strictly larger id, and the counter grows by at
    most one per call. *)
Theorem deposit_ids_increase (w w1 w2 : World) (e1 e2 : Env) (u1 u2 : string)
    (cs : list (Call * Env)) (id1 id2 : Z) :
  SavingsPool.depositWithURI u1 e1 w = Ok (id1, w1) ->
  SavingsPool.depositWithURI u2 e2 (run cs w1) = Ok (id2, w2) ->
  id1 = nextId (sp w) + 1 /\ id1 < id2 /\
  id2 <= id1 + Z.of_nat (length cs) + 1.
Proof.
  intros H1 H2.
  apply depositWithURI_Ok in H1 as (-> & -> & _ & _).
  apply depositWithURI_Ok in H2 as (-> & _ & _ & _).
  pose proof (nextId_run cs (deposited u1 e1 w)) as Hn.
  change (nextId (sp (deposited u1 e1 w))) with (nextId (sp w) + 1) in Hn.
  lia.
Qed.

Lemma deposit_ids_increase_witness :
  (1 : Z) < 3.
Proof.
  refine (proj1 (proj2 (deposit_ids_increase world0 world1
    (deposited EmptyString (plain_account 9 50 30)
       (run [(CallSetApr 100, plain_account 100 0 10);
             (CallDeposit, plain_account 8 700 20)] world1))
    (plain_account 7 1000000 0) (plain_account 9 50 30) EmptyString EmptyString
    [(CallSetApr 100, plain_account 100 0 10); (CallDeposit, plain_account 8 700 20)]
    1 3 _ _))).
  - vm_compute. reflexivity.
  - vm_compute. reflexivity.
Defined.

(** ** Positions are never closed, funds never leave *)

Lemma all_active_exec (c : Call) (e : Env) (w : World) :
  all_active w -> all_active (exec c e w).
Proof.
  intros Ha.
  destruct (exec_shape c e w) as [-> | [(uri & -> & _) | [(bps & _ & _ & ->) | (a & _ & ->)]]];
    try exact Ha.
  intros tokenId. unfold created, deposited. proj_simpl. intros Hc.
  destruct (decide (tokenId = nextId (sp w) + 1)) as [->|Hne].
  - rewrite lookup_insert_eq. eexists. split; reflexivity.
  - rewrite lookup_insert_ne by congruence. apply Ha. unfold created. lia.
Qed.

Lemma reachable_all_active (w : World) : reachable w -> all_active w.
Proof.
  induction 1 as [apr deployer s n addr Hapr Hc | w c e _ IH Hc He | w w' _ IH Hsp _].
  - unfold SavingsPool.constructor in Hc.
    destruct (apr <=? 5000); [|discriminate]. injection Hc as <-.
    intros tokenId. unfold created. proj_simpl. lia.
  - apply all_active_exec, IH.
  - intros tokenId. unfold created. rewrite Hsp. apply IH.
Qed.

(** X3. In every reachable state every position that has been created is
    still active: the only function that clears the flag, [withdraw], never
    commits, so no position is ever closed. *)
Theorem created_positions_stay_active (w : World) (tokenId : Z) :
  reachable w -> created w tokenId ->
  active (position_of w tokenId) = true.
Proof.
  intros Hr Hc. destruct (reachable_all_active w Hr tokenId Hc) as (p & Hp & Ha).
  unfold position_of. rewrite lookup_total_alt, Hp. exact Ha.
Qed.

Lemma created_positions_stay_active_witness :
  active (position_of
    (exec (CallWithdraw 1) (plain_account 7 0 31536000) world1) 1) = true.
Proof.
  apply created_positions_stay_active.
  - apply reach_call; [exact world1_reachable | |].
    + cbn [wf_call]. unfold MAX_UINT256. lia.
    + apply plain_account_wf; unfold MAX_UINT256; lia.
  - unfold created. vm_compute. split; discriminate.
Defined.

Lemma funds_exec (c : Call) (e : Env) (w : World) :
  0 <= value e ->
  balance w <= balance (exec c e w) /\
  exists l, log (exec c e w) = log w ++ l /\ forallb (fun ev => negb (is_withdrawn ev)) l = true.
Proof.
  intros Hv.
  destruct (exec_shape c e w) as [-> | [(uri & -> & _) | [(bps & _ & _ & ->) | (a & _ & ->)]]];
    unfold deposited; proj_simpl.
  - split; [lia|]. exists []. rewrite app_nil_r. split; reflexivity.
  - split; [lia|]. eexists. split; [reflexivity|].
    destruct (String.length uri =? 0)%nat; reflexivity.
  - split; [lia|]. eexists. split; reflexivity.
  - split; [lia|]. eexists. split; reflexivity.
Qed.

(** X4. Whatever calls are made (carrying no negative value), the balance
    held by the pool never goes down and no [Withdrawn] event is ever
    logged: nothing that is deposited can be taken out again. *)
Theorem funds_never_leave (cs : list (Call * Env)) (w : World) :
  Forall (fun ce => 0 <= value (snd ce)) cs ->
  balance w <= balance (run cs w) /\
  exists l, log (run cs w) = log w ++ l /\
            forallb (fun ev => negb (is_withdrawn ev)) l = true.
Proof.
  revert w. induction cs as [|[c e] cs IH]; intros w Hall.
  - split; [simpl; lia|]. exists []. rewrite app_nil_r. split; reflexivity.
  - apply Forall_cons in Hall as (Hv & Hall). cbn [snd] in Hv.
    rewrite run_cons.
    destruct (funds_exec c e w Hv) as (Hb & l1 & Hl1 & Hf1).
    destruct (IH (exec c e w) Hall) as (Hb2 & l2 & Hl2 & Hf2).
    split; [lia|]. exists (l1 ++ l2).
    rewrite Hl2, Hl1, <- app_assoc. split; [reflexivity|].
    rewrite forallb_app, Hf1, Hf2. reflexivity.
Qed.

Lemma funds_never_leave_witness :
  balance world1 <=
  balance (run [(CallWithdraw 1, plain_account 7 0 31536000);
                (CallDeposit, plain_account 8 700 31536001);
                (CallWithdraw 2, plain_account 8 0 31536002)] world1).
Proof.
  apply funds_never_leave.
  repeat (constructor; [cbn; lia|]). constructor.
Defined.

(** ** Principal is covered *)

Lemma total_principal_insert (m : gmap Z Position) (k : Z) (p : Position) :
  m !! k = None ->
  map_fold (fun _ q acc => principal q + acc) 0 (<[k := p]> m) =
  principal p + map_fold (fun _ q acc => principal q + acc) 0 m.
Proof.
  intros Hk.
  apply (map_fold_insert_L (fun (_ : Z) (q : Position) (acc : Z) => principal q + acc));
    [|exact Hk].
  intros. lia.
Qed.

Lemma covered_exec (c : Call) (e : Env) (w : World) :
  ids_fresh w -> total_principal w <= balance w ->
  total_principal (exec c e w) <= balance (exec c e w).
Proof.
  intros [Hn Hf] Hcov.
  destruct (exec_shape c e w) as [-> | [(uri & -> & Hv & _) | [(bps & _ & _ & ->) | (a & _ & ->)]]];
    try exact Hcov.
  unfold total_principal, deposited in *. proj_simpl.
  rewrite total_principal_insert.
  - proj_simpl. unfold uint128.
    pose proof (Z.mod_le (value e) (2 ^ 128) ltac:(lia) ltac:(reflexivity)). lia.
  - destruct (positions (sp w) !! (nextId (sp w) + 1)) as [q|] eqn:Hq; [|reflexivity].
    specialize (Hf _ _ Hq). unfold created in Hf. lia.
Qed.

(** X5. The pool always holds at least the sum of the principals it has
    recorded: if that is so in a state where ids above the counter are
    unused (as at deployment), it is so after any run of calls. *)
Theorem principal_is_covered (cs : list (Call * Env)) (w : World) :
  ids_fresh w -> total_principal w <= balance w ->
  total_principal (run cs w) <= balance (run cs w).
Proof.
  revert w. induction cs as [|[c e] cs IH]; intros w Hf Hcov; [exact Hcov|].
  rewrite run_cons. apply IH.
  - apply ids_fresh_exec, Hf.
  - apply covered_exec; assumption.
Qed.

Lemma world0_ids_fresh : ids_fresh world0.
Proof.
  split; [simpl; lia|]. intros tokenId p H.
  change (positions (sp world0)) with (∅ : gmap Z Position) in H.
  rewrite lookup_empty in H. discriminate.
Qed.

Lemma principal_is_covered_witness :
  total_principal (run [(CallDeposit, plain_account 7 1000000 0);
                        (CallDeposit, plain_account 8 (2 ^ 128 + 5) 3);
                        (CallWithdraw 1, plain_account 7 0 9)] world0)
  <= balance (run [(CallDeposit, plain_account 7 1000000 0);
                   (CallDeposit, plain_account 8 (2 ^ 128 + 5) 3);
                   (CallWithdraw 1, plain_account 7 0 9)] world0).
Proof.
  apply principal_is_covered; [exact world0_ids_fresh | vm_compute; discriminate].
Defined.

(** ** Interest over time and under a new rate *)

(** X6. For an active position of a reachable state, the interest does not
    decrease as the clock advances: a later clock value gives at least as
    much. *)
Theorem accrued_monotone_in_time (w : World) (e1 e2 : Env) (tokenId : Z) :
  reachable w -> wf_env e1 -> wf_env e2 ->
  active (position_of w tokenId) = true ->
  start (position_of w tokenId) <= timestamp e1 ->
  timestamp e1 <= timestamp e2 ->
  exists a1 a2,
    SavingsPool.accrued tokenId e1 w = Ok (a1, w) /\
    SavingsPool.accrued tokenId e2 w = Ok (a2, w) /\
    0 <= a1 <= a2.
Proof.
  intros Hr He1 He2 Hact Hs Ht. pose proof (reachable_inv w Hr) as Hinv.
  destruct (position_of_bounds w tokenId Hinv) as (Hpr & Hst & _).
  destruct (inv_apr w Hinv) as (Ha0 & Ha1).
  do 2 eexists. split; [apply accrued_active; assumption|].
  split; [apply accrued_active; [assumption .. | lia]|].
  assert (Hpa : 0 <= principal (position_of w tokenId) * aprBps (sp w))
    by (apply Z.mul_nonneg_nonneg; lia).
  split.
  - apply Z.div_pos; [apply Z.mul_nonneg_nonneg; lia | lia].
  - apply Z.div_le_mono; [lia | apply Z.mul_le_mono_nonneg_l; lia].
Qed.

Lemma accrued_monotone_in_time_witness :
  exists a1 a2,
    SavingsPool.accrued 1 (plain_account 7 0 100) world1 = Ok (a1, world1) /\
    SavingsPool.accrued 1 (plain_account 7 0 31536000) world1 = Ok (a2, world1) /\
    0 <= a1 <= a2.
Proof.
  apply accrued_monotone_in_time;
    [exact world1_reachable
    | apply plain_account_wf; unfold MAX_UINT256; lia
    | apply plain_account_wf; unfold MAX_UINT256; lia
    | reflexivity
    | vm_compute; discriminate
    | vm_compute; discriminate].
Defined.

(** X7. For an active position of a reachable state and a clock not behind
    its start, [payoutOf] succeeds, is never less than the principal, and
    the interest in it is at most half the principal per 365 days elapsed
    (the rate ceiling of 5000 bps). *)
Theorem payoutOf_bounds (w : World) (e : Env) (tokenId : Z) :
  reachable w -> wf_env e ->
  active (position_of w tokenId) = true ->
  start (position_of w tokenId) <= timestamp e ->
  exists a,
    SavingsPool.payoutOf tokenId e w = Ok (principal (position_of w tokenId) + a, w) /\
    0 <= a /\
    2 * 31536000 * a <=
      principal (position_of w tokenId) * (timestamp e - start (position_of w tokenId)).
Proof.
  intros Hr He Hact Hs. pose proof (reachable_inv w Hr) as Hinv.
  destruct (position_of_bounds w tokenId Hinv) as (Hpr & Hst & _).
  destruct (inv_apr w Hinv) as (Ha0 & Ha1).
  eexists. rewrite payoutOf_accrued by assumption.
  rewrite accrued_active by assumption.
  split; [reflexivity|].
  set (pr := principal (position_of w tokenId)) in *.
  set (dt := timestamp e - start (position_of w tokenId)).
  assert (Hdt : 0 <= dt) by (unfold dt; lia).
  assert (Hx : 0 <= pr * aprBps (sp w) * dt)
    by (repeat apply Z.mul_nonneg_nonneg; lia).
  split; [apply Z.div_pos; [exact Hx | lia]|].
  pose proof (Z.mul_div_le (pr * aprBps (sp w) * dt) (31536000 * 10000) ltac:(lia)).
  assert (pr * aprBps (sp w) * dt <= pr * 5000 * dt).
  { apply Z.mul_le_mono_nonneg_r; [lia|]. apply Z.mul_le_mono_nonneg_l; lia. }
  lia.
Qed.

Lemma payoutOf_bounds_witness :
  exists a,
    SavingsPool.payoutOf 1 (plain_account 9 0 31536000) world1
      = Ok (principal (position_of world1 1) + a, world1) /\
    0 <= a /\
    2 * 31536000 * a <=
      principal (position_of world1 1) *
      (timestamp (plain_account 9 0 31536000) - start (position_of world1 1)).
Proof.
  apply payoutOf_bounds;
    [exact world1_reachable
    | apply plain_account_wf; unfold MAX_UINT256; lia
    | reflexivity
    | vm_compute; discriminate].
Defined.

(** X8. The rate is read when interest is computed, not when the position
    is created: once the owner has stored a new rate, the interest of every
    open position is computed with the new rate over the whole time since
    its start. *)
Theorem new_rate_applies_to_open_positions (w : World) (e e' : Env)
    (bps tokenId : Z) :
  reachable w -> wf_env e' ->
  sender e = pool_owner (sp w) -> 0 <= bps <= 5000 ->
  active (position_of w tokenId) = true ->
  start (position_of w tokenId) <= timestamp e' ->
  exists w',
    transact (SavingsPool.setApr bps) e w = (w', Ok tt) /\
    position_of w' tokenId = position_of w tokenId /\
    SavingsPool.accrued tokenId e' w' =
      Ok (principal (position_of w tokenId) * bps *
          (timestamp e' - start (position_of w tokenId)) / (31536000 * 10000), w').
Proof.
  intros Hr He' Ho Hb Hact Hs. pose proof (reachable_inv w Hr) as Hinv.
  assert (Hinv' : pool_inv (exec (CallSetApr bps) e w)).
  { apply pool_inv_exec; [cbn [wf_call]; unfold MAX_UINT256; lia | exact Hinv]. }
  unfold exec, transact in *. rewrite setApr_unfold in *.
  rewrite Ho, Z.eqb_refl in *. proj_simpl.
  rewrite (proj2 (Z.leb_le bps 5000)) in * by lia. proj_simpl. cbn [fst] in Hinv'.
  eexists. split; [reflexivity|]. split; [reflexivity|].
  rewrite accrued_active; [reflexivity | exact Hinv' | exact He' | exact Hact | exact Hs].
Qed.

Lemma new_rate_applies_to_open_positions_witness :
  exists w',
    transact (SavingsPool.setApr 1000) (plain_account 100 0 5) world1 = (w', Ok tt) /\
    SavingsPool.accrued 1 (plain_account 7 0 31536000) w' = Ok (100000, w').
Proof.
  destruct (new_rate_applies_to_open_positions world1 (plain_account 100 0 5)
              (plain_account 7 0 31536000) 1000 1 world1_reachable
              (plain_account_wf 7 0 31536000 ltac:(lia)
                 ltac:(unfold MAX_UINT256; lia) ltac:(lia))
              eq_refl ltac:(lia) eq_refl ltac:(vm_compute; discriminate))
    as (w' & Ht & _ & Ha).
  exists w'. split; [exact Ht | exact Ha].
Defined.

(** ** Who may withdraw *)

(** X9. [withdraw] checks, in this order: the guard, that the position is
    active, that the certificate exists, and that the caller is its holder
    as the ReceiptNFT records it at the time of the call.  A position
    that was never created or a caller who is not the holder fails, with
    the not-active, not-found or not-owner error, and nothing changes. *)
Theorem withdraw_rejections (w : World) (e : Env) (tokenId : Z) :
  _status (sp w) = NOT_ENTERED ->
  (positions (sp w) !! tokenId = None ->
     transact (SavingsPool.withdraw tokenId) e w = (w, Revert NotActive)) /\
  (active (position_of w tokenId) = true -> slot (_owners (nft w)) tokenId = 0 ->
     transact (SavingsPool.withdraw tokenId) e w = (w, Revert InvalidTokenId) /\
     kind InvalidTokenId = NotFound) /\
  (active (position_of w tokenId) = true -> slot (_owners (nft w)) tokenId <> 0 ->
   slot (_owners (nft w)) tokenId <> sender e ->
     transact (SavingsPool.withdraw tokenId) e w = (w, Revert NotHolder) /\
     kind NotHolder = NotOwner).
Proof.
  intros Hst. unfold transact. rewrite withdraw_unfold, Hst.
  rewrite bool_decide_eq_false_2 by discriminate.
  split; [|split].
  - intros Hm. rewrite (position_of_missing w tokenId Hm). reflexivity.
  - intros Hact Hz. rewrite Hact, Hz. split; reflexivity.
  - intros Hact Hnz Hne. rewrite Hact. proj_simpl.
    rewrite (proj2 (Z.eqb_neq _ _) Hnz), (proj2 (Z.eqb_neq _ _) Hne).
    split; reflexivity.
Qed.

Lemma withdraw_rejections_witness :
  transact (SavingsPool.withdraw 2) (plain_account 7 0 9) world1
    = (world1, Revert NotActive) /\
  transact (SavingsPool.withdraw 1) (plain_account 8 0 9) world1
    = (world1, Revert NotHolder).
Proof.
  split.
  - apply (withdraw_rejections world1 (plain_account 7 0 9) 2 eq_refl).
    reflexivity.
  - apply (withdraw_rejections world1 (plain_account 8 0 9) 1 eq_refl);
      [reflexivity | vm_compute; discriminate | vm_compute; discriminate].
Defined.

(** ** Deposits *)

(** X10. A deposit that is accepted (guard free, value sent, counter not
    exhausted, ReceiptNFT bound to the pool, id not yet minted, depositor
    able to hold a certificate) returns the next id, records an active
    position with the truncated amount and the block time and leaves all
    other positions alone, advances the counter by one, releases the
    guard, and leaves the pool holding the value sent on top of what it
    held; the certificate of the new id has a holder, and the log grows by
    the issuance to the depositor first and [Deposited] last. *)
Theorem deposit_effects (w : World) (e : Env) (uri : string) :
  _status (sp w) = NOT_ENTERED -> 0 < value e ->
  nextId (sp w) + 1 <= MAX_UINT256 ->
  pool (nft w) = pool_address w ->
  sender e <> 0 ->
  slot (_owners (nft w)) (nextId (sp w) + 1) = 0 ->
  accepts_receipt e (sender e) = true ->
  exists w',
    transact (SavingsPool.depositWithURI uri) e w = (w', Ok (nextId (sp w) + 1)) /\
    position_of w' (nextId (sp w) + 1) =
      mkPosition (uint128 (value e)) (uint64 (timestamp e)) true /\
    (forall other, other <> nextId (sp w) + 1 ->
       position_of w' other = position_of w other) /\
    nextId (sp w') = nextId (sp w) + 1 /\
    _status (sp w') = NOT_ENTERED /\
    slot (_owners (nft w')) (nextId (sp w) + 1) <> 0 /\
    balance w + value e <= balance w' /\
    exists l,
      log w' = log w ++ Transfer 0 (sender e) (nextId (sp w) + 1) :: l ++
                        [Deposited (nextId (sp w) + 1) (sender e) (value e)].
Proof.
  intros Hst Hv Hmax Hpool Hnz Hfree Hacc.
  exists (deposited uri e w). unfold transact.
  rewrite depositWithURI_unfold. cbv zeta. rewrite Hst.
  rewrite bool_decide_eq_false_2 by discriminate.
  rewrite (proj2 (Z.ltb_lt 0 (value e)) Hv).
  rewrite (proj2 (Z.leb_le _ _) Hmax), Hpool, Z.eqb_refl,
    (proj2 (Z.eqb_neq _ _) Hnz), Hfree, Hacc.
  proj_simpl. split; [reflexivity|].
  unfold position_of, deposited, minted. proj_simpl.
  split; [apply lookup_total_insert_eq|].
  split; [intros other Hne; apply lookup_total_insert_ne; congruence|].
  do 2 (split; [reflexivity|]).
  split; [rewrite slot_insert_eq; exact Hnz|].
  split; [lia|]. eexists. reflexivity.
Qed.

Lemma deposit_effects_witness :
  exists w',
    transact (SavingsPool.depositWithURI "ipfs://receipt") (plain_account 8 700 20)
      world1 = (w', Ok 2) /\
    position_of w' 2 = mkPosition 700 20 true /\
    nextId (sp w') = 2.
Proof.
  destruct (deposit_effects world1 (plain_account 8 700 20) "ipfs://receipt"
              eq_refl ltac:(simpl; lia) ltac:(vm_compute; discriminate)
              eq_refl ltac:(vm_compute; discriminate) eq_refl eq_refl)
    as (w' & Ht & Hp & _ & Hn & _).
  exists w'. split; [exact Ht|]. split; [exact Hp | exact Hn].
Defined.

(** X11. A deposit is refused, and the value sent with it is not kept, when
    the certificate cannot be issued: while the ReceiptNFT is not bound to
    the pool every deposit fails as unauthorized; a depositor that is a
    contract unable to receive certificates is refused; and so is a
    deposit whose id the ReceiptNFT has already given out. *)
Theorem deposit_needs_certificate (w : World) (e : Env) (uri : string) :
  _status (sp w) = NOT_ENTERED -> 0 < value e ->
  nextId (sp w) + 1 <= MAX_UINT256 ->
  (pool (nft w) <> pool_address w ->
     transact (SavingsPool.depositWithURI uri) e w = (w, Revert NotPool) /\
     kind NotPool = Unauthorized) /\
  (pool (nft w) = pool_address w -> sender e <> 0 ->
   slot (_owners (nft w)) (nextId (sp w) + 1) <> 0 ->
     transact (SavingsPool.depositWithURI uri) e w = (w, Revert AlreadyMinted)) /\
  (pool (nft w) = pool_address w -> sender e <> 0 ->
   slot (_owners (nft w)) (nextId (sp w) + 1) = 0 ->
   accepts_receipt e (sender e) = false ->
     transact (SavingsPool.depositWithURI uri) e w = (w, Revert NonReceiver)).
Proof.
  intros Hst Hv Hmax. unfold transact.
  rewrite depositWithURI_unfold. cbv zeta. rewrite Hst.
  rewrite bool_decide_eq_false_2 by discriminate.
  rewrite (proj2 (Z.ltb_lt 0 (value e)) Hv), (proj2 (Z.leb_le _ _) Hmax).
  proj_simpl. split; [|split].
  - intros Hp. rewrite (proj2 (Z.eqb_neq (pool_address w) (pool (nft w))))
      by congruence.
    split; reflexivity.
  - intros Hp Hnz Hown. rewrite Hp, Z.eqb_refl. proj_simpl.
    rewrite (proj2 (Z.eqb_neq _ _) Hnz), (proj2 (Z.eqb_neq _ _) Hown). reflexivity.
  - intros Hp Hnz Hown Hacc. rewrite Hp, Z.eqb_refl. proj_simpl.
    rewrite (proj2 (Z.eqb_neq _ _) Hnz), Hown, Hacc. reflexivity.
Qed.

Lemma deposit_needs_certificate_witness :
  transact (SavingsPool.depositWithURI EmptyString) (plain_account 7 1000000 0)
    world_unbound = (world_unbound, Revert NotPool) /\
  transact (SavingsPool.depositWithURI EmptyString) (non_receiver 8 700 20) world1
    = (world1, Revert NonReceiver).
Proof.
  split.
  - apply (deposit_needs_certificate world_unbound (plain_account 7 1000000 0)
             EmptyString eq_refl ltac:(simpl; lia) ltac:(vm_compute; discriminate)).
    vm_compute. discriminate.
  - apply (deposit_needs_certificate world1 (non_receiver 8 700 20)
             EmptyString eq_refl ltac:(simpl; lia) ltac:(vm_compute; discriminate));
      [reflexivity | vm_compute; discriminate | reflexivity | reflexivity].
Defined.

(** ** ReceiptNFT: binding the pool *)

Lemma setPool_unfold (p : Z) (e : Env) (w : World) :
  ReceiptNFT.setPool p e w =
  if negb (nft_owner (nft w) =? sender e) then Revert CallerNotOwner
  else if p =? 0 then Revert PoolZero
  else Ok (tt, set_nft (fun n =>
             mkNft (nft_owner n) p (_owners n) (_balances n)
                   (_tokenApprovals n) (_tokenURIs n)) w).
Proof.
  unfold ReceiptNFT.setPool, ReceiptNFT.onlyOwner. sol_unfold.
  destruct (nft_owner (nft w) =? sender e); proj_simpl; [|reflexivity].
  destruct (p =? 0); reflexivity.
Qed.

Lemma burn_not_pool (tokenId : Z) (e : Env) (w : World) :
  sender e <> pool (nft w) -> ReceiptNFT.burn tokenId e w = Revert NotPool.
Proof.
  intros Hs. unfold ReceiptNFT.burn, ReceiptNFT.onlyPool. sol_unfold.
  rewrite (proj2 (Z.eqb_neq _ _) Hs). reflexivity.
Qed.

(** X12. [setPool] is for the owner of the ReceiptNFT only and refuses the
    zero address; when it succeeds it changes the binding and nothing
    else (no certificate, count, approval or metadata, not the owner, the
    pool, the balance or the log), and the right to mint and burn moves
    with it: every caller other than the new pool, the previous pool
    included, is turned away by [mint] and [burn]. *)
Theorem setPool_rebinds (w : World) (e : Env) (p : Z) :
  (sender e <> nft_owner (nft w) ->
     transact (ReceiptNFT.setPool p) e w = (w, Revert CallerNotOwner)) /\
  (sender e = nft_owner (nft w) -> p = 0 ->
     transact (ReceiptNFT.setPool p) e w = (w, Revert PoolZero)) /\
  (sender e = nft_owner (nft w) -> p <> 0 ->
     exists w',
       transact (ReceiptNFT.setPool p) e w = (w', Ok tt) /\
       w' = mkWorld (sp w)
              (mkNft (nft_owner (nft w)) p (_owners (nft w)) (_balances (nft w))
                     (_tokenApprovals (nft w)) (_tokenURIs (nft w)))
              (pool_address w) (balance w) (log w) /\
       (forall e2 to tokenId uri, sender e2 <> p ->
          ReceiptNFT.mint to tokenId uri e2 w' = Revert NotPool /\
          ReceiptNFT.burn tokenId e2 w' = Revert NotPool)).
Proof.
  unfold transact. rewrite setPool_unfold. split; [|split].
  - intros Hs. rewrite (proj2 (Z.eqb_neq (nft_owner (nft w)) (sender e)))
      by congruence.
    reflexivity.
  - intros Hs ->. rewrite Hs, Z.eqb_refl. reflexivity.
  - intros Hs Hp. rewrite Hs, Z.eqb_refl. proj_simpl.
    rewrite (proj2 (Z.eqb_neq _ _) Hp).
    eexists. split; [reflexivity|]. split; [reflexivity|].
    intros e2 to tokenId uri Hne. split.
    + rewrite mint_unfold. proj_simpl.
      rewrite (proj2 (Z.eqb_neq _ _) Hne). reflexivity.
    + apply burn_not_pool. proj_simpl. exact Hne.
Qed.

Lemma setPool_rebinds_witness :
  exists w',
    transact (ReceiptNFT.setPool 300) (plain_account 100 0 0) world1 = (w', Ok tt) /\
    pool (nft w') = 300 /\ log w' = log world1 /\
    ReceiptNFT.burn 1 (plain_account 200 0 0) w' = Revert NotPool.
Proof.
  destruct (setPool_rebinds world1 (plain_account 100 0 0) 300) as (_ & _ & H).
  destruct H as (w' & Ht & Hw & Hm); [reflexivity | lia |].
  exists w'. split; [exact Ht|].
  split; [rewrite Hw; reflexivity|]. split; [rewrite Hw; reflexivity|].
  apply (Hm (plain_account 200 0 0) 0 1 EmptyString). simpl. lia.
Defined.

(** ** ReceiptNFT: burning and reissuing *)

Lemma string_length_zero (u : string) :
  (String.length u =? 0)%nat = true -> u = EmptyString.
Proof. destruct u; [reflexivity | discriminate]. Qed.

(** What [burn] leaves behind when it succeeds. *)
Lemma burn_Ok (tokenId : Z) (e : Env) (w : World) :
  sender e = pool (nft w) -> slot (_owners (nft w)) tokenId <> 0 ->
  exists w',
    ReceiptNFT.burn tokenId e w = Ok (tt, w') /\
    _owners (nft w') = delete tokenId (_owners (nft w)) /\
    _balances (nft w') =
      <[slot (_owners (nft w)) tokenId :=
          (slot (_balances (nft w)) (slot (_owners (nft w)) tokenId) - 1) mod 2 ^ 256]>
        (_balances (nft w)) /\
    _tokenApprovals (nft w') = delete tokenId (_tokenApprovals (nft w)) /\
    default EmptyString (_tokenURIs (nft w') !! tokenId) = EmptyString /\
    (forall other, other <> tokenId ->
       _tokenURIs (nft w') !! other = _tokenURIs (nft w) !! other) /\
    pool (nft w') = pool (nft w) /\ nft_owner (nft w') = nft_owner (nft w) /\
    sp w' = sp w /\ balance w' = balance w /\ pool_address w' = pool_address w /\
    log w' = log w ++ [Transfer (slot (_owners (nft w)) tokenId) 0 tokenId] /\
    (default EmptyString (_tokenURIs (nft w) !! tokenId) <> EmptyString ->
       _tokenURIs (nft w') !! tokenId = None).
Proof.
  intros Hs Hown.
  unfold ReceiptNFT.burn, ReceiptNFT.onlyPool, ReceiptNFT._burn,
    ERC721URIStorage._burn, ERC721._burn, ERC721.ownerOf, ERC721._ownerOf.
  sol_unfold. rewrite Hs, Z.eqb_refl. proj_simpl.
  rewrite (proj2 (Z.eqb_neq _ _) Hown). proj_simpl.
  destruct (String.length (default EmptyString (_tokenURIs (nft w) !! tokenId)) =? 0)%nat
    eqn:Hlen; proj_simpl.
  - eexists. split; [reflexivity|]. proj_simpl.
    do 3 (split; [reflexivity|]).
    split; [apply string_length_zero, Hlen|].
    split; [intros other _; reflexivity|].
    do 6 (split; [reflexivity|]).
    intros Hne. destruct Hne. apply string_length_zero, Hlen.
  - eexists. split; [reflexivity|]. proj_simpl.
    do 3 (split; [reflexivity|]).
    split; [rewrite lookup_delete_eq; reflexivity|].
    split; [intros other Hne; apply lookup_delete_ne; congruence|].
    do 6 (split; [reflexivity|]).
    intros _. apply lookup_delete_eq.
Qed.

Lemma slot_insert_ne (m : gmap Z Z) (k k' v : Z) :
  k <> k' -> slot (<[k := v]> m) k' = slot m k'.
Proof. intros H. unfold slot. rewrite lookup_insert_ne by assumption. reflexivity. Qed.

Lemma slot_delete_eq (m : gmap Z Z) (k : Z) : slot (delete k m) k = 0.
Proof. unfold slot. rewrite lookup_delete_eq. reflexivity. Qed.

Lemma slot_delete_ne (m : gmap Z Z) (k k' : Z) :
  k <> k' -> slot (delete k m) k' = slot m k'.
Proof. intros H. unfold slot. rewrite lookup_delete_ne by assumption. reflexivity. Qed.

(** X13. [burn] is for the bound pool only; it fails with the not-found
    error when the id has no holder; otherwise it removes the holder, the
    approval and the metadata of that id, takes one off the holder's
    count, touches no other id and nothing of the pool, and logs the
    transfer to the zero address; afterwards [ownerOf] and [tokenURI] of
    the id fail and a second [burn] fails. *)
Theorem burn_spec (w : World) (e : Env) (tokenId : Z) :
  (sender e <> pool (nft w) ->
     transact (ReceiptNFT.burn tokenId) e w = (w, Revert NotPool) /\
     kind NotPool = Unauthorized) /\
  (sender e = pool (nft w) -> slot (_owners (nft w)) tokenId = 0 ->
     transact (ReceiptNFT.burn tokenId) e w = (w, Revert InvalidTokenId) /\
     kind InvalidTokenId = NotFound) /\
  (sender e = pool (nft w) -> slot (_owners (nft w)) tokenId <> 0 ->
     exists w',
       transact (ReceiptNFT.burn tokenId) e w = (w', Ok tt) /\
       slot (_owners (nft w')) tokenId = 0 /\
       _tokenApprovals (nft w') !! tokenId = None /\
       default EmptyString (_tokenURIs (nft w') !! tokenId) = EmptyString /\
       (default EmptyString (_tokenURIs (nft w) !! tokenId) <> EmptyString ->
          _tokenURIs (nft w') !! tokenId = None) /\
       slot (_balances (nft w')) (slot (_owners (nft w)) tokenId) =
         (slot (_balances (nft w)) (slot (_owners (nft w)) tokenId) - 1) mod 2 ^ 256 /\
       (forall other, other <> tokenId ->
          slot (_owners (nft w')) other = slot (_owners (nft w)) other /\
          _tokenApprovals (nft w') !! other = _tokenApprovals (nft w) !! other /\
          _tokenURIs (nft w') !! other = _tokenURIs (nft w) !! other) /\
       pool (nft w') = pool (nft w) /\ nft_owner (nft w') = nft_owner (nft w) /\
       sp w' = sp w /\ balance w' = balance w /\
       log w' = log w ++ [Transfer (slot (_owners (nft w)) tokenId) 0 tokenId] /\
       (forall e2, ReceiptNFT.ownerOf tokenId e2 w' = Revert InvalidTokenId) /\
       (forall e2, ReceiptNFT.tokenURI tokenId e2 w' = Revert InvalidTokenId) /\
       transact (ReceiptNFT.burn tokenId) e w' = (w', Revert InvalidTokenId)).
Proof.
  split; [|split].
  - intros Hs. unfold transact. rewrite burn_not_pool by assumption.
    split; reflexivity.
  - intros Hs Hz. unfold transact.
    unfold ReceiptNFT.burn, ReceiptNFT.onlyPool, ReceiptNFT._burn,
      ERC721URIStorage._burn, ERC721._burn, ERC721.ownerOf, ERC721._ownerOf.
    sol_unfold. rewrite Hs, Z.eqb_refl. proj_simpl. rewrite Hz.
    split; reflexivity.
  - intros Hs Hown.
    destruct (burn_Ok tokenId e w Hs Hown)
      as (w' & Hb & Ho & Hbl & Hap & Hu & Huo & Hp & Hno & Hsp & Hba & _ & Hl & Hrm).
    exists w'. unfold transact at 1. rewrite Hb.
    assert (Hgone : slot (_owners (nft w')) tokenId = 0)
      by (rewrite Ho; apply slot_delete_eq).
    split; [reflexivity|]. split; [exact Hgone|].
    split; [rewrite Hap; apply lookup_delete_eq|].
    split; [exact Hu|]. split; [exact Hrm|].
    split; [rewrite Hbl; apply slot_insert_eq|].
    split.
    { intros other Hne. rewrite Ho, Hap.
      split; [apply slot_delete_ne; congruence|].
      split; [apply lookup_delete_ne; congruence | apply Huo, Hne]. }
    do 5 (split; [assumption|]).
    split.
    { intros e2. unfold ReceiptNFT.ownerOf, ERC721.ownerOf, ERC721._ownerOf.
      sol_unfold. rewrite Hgone. reflexivity. }
    split.
    { intros e2. unfold ReceiptNFT.tokenURI, ERC721URIStorage.tokenURI,
        ERC721._exists, ERC721._ownerOf.
      sol_unfold. rewrite Hgone. reflexivity. }
    unfold transact.
    unfold ReceiptNFT.burn, ReceiptNFT.onlyPool, ReceiptNFT._burn,
      ERC721URIStorage._burn, ERC721._burn, ERC721.ownerOf, ERC721._ownerOf.
    sol_unfold. rewrite Hp, Hs, Z.eqb_refl. proj_simpl. rewrite Hgone.
    reflexivity.
Qed.

Lemma burn_spec_witness :
  transact (ReceiptNFT.burn 1) (plain_account 7 0 0) world_with_uri
    = (world_with_uri, Revert NotPool) /\
  transact (ReceiptNFT.burn 2) (plain_account 200 0 0) world_with_uri
    = (world_with_uri, Revert InvalidTokenId) /\
  _tokenURIs (nft world_with_uri) !! 1 = Some "ipfs://receipt"%string /\
  exists w',
    transact (ReceiptNFT.burn 1) (plain_account 200 0 0) world_with_uri
      = (w', Ok tt) /\
    _tokenURIs (nft w') !! 1 = None /\
    log w' = log world_with_uri ++ [Transfer 7 0 1].
Proof.
  split; [|split; [|split]].
  - apply (burn_spec world_with_uri (plain_account 7 0 0) 1).
    vm_compute. discriminate.
  - apply (burn_spec world_with_uri (plain_account 200 0 0) 2); reflexivity.
  - reflexivity.
  - destruct (burn_spec world_with_uri (plain_account 200 0 0) 1) as (_ & _ & H).
    destruct H as (w' & Ht & _ & _ & _ & Hrm & _ & _ & _ & _ & _ & _ & Hl & _);
      [reflexivity | vm_compute; discriminate |].
    exists w'. split; [exact Ht|]. split; [|exact Hl].
    apply Hrm. vm_compute. discriminate.
Defined.

(** X14. Minting a certificate and then burning it leaves the id without
    holder and without metadata, whatever metadata it was minted with; the
    log grows by the issuance first and the transfer to the zero address
    last; and the ReceiptNFT keeps no memory of burned ids, so the same id
    can then be minted again. *)
Theorem mint_then_burn (w : World) (e : Env) (to tokenId : Z) (uri : string) :
  sender e = pool (nft w) -> to <> 0 ->
  slot (_owners (nft w)) tokenId = 0 ->
  accepts_receipt e to = true ->
  exists w1 w2,
    ReceiptNFT.mint to tokenId uri e w = Ok (tt, w1) /\
    ReceiptNFT.burn tokenId e w1 = Ok (tt, w2) /\
    slot (_owners (nft w2)) tokenId = 0 /\
    default EmptyString (_tokenURIs (nft w2) !! tokenId) = EmptyString /\
    (uri <> EmptyString ->
       _tokenURIs (nft w1) !! tokenId = Some uri /\
       _tokenURIs (nft w2) !! tokenId = None) /\
    (exists l h, h <> 0 /\
       log w2 = log w ++ Transfer 0 to tokenId :: l ++ [Transfer h 0 tokenId]) /\
    (forall to' uri', to' <> 0 -> accepts_receipt e to' = true ->
       exists w3, ReceiptNFT.mint to' tokenId uri' e w2 = Ok (tt, w3) /\
                  slot (_owners (nft w3)) tokenId <> 0).
Proof.
  intros Hs Hto Hfree Hacc.
  assert (Hm : ReceiptNFT.mint to tokenId uri e w = Ok (tt, minted to tokenId uri w)).
  { rewrite mint_unfold, Hs, Z.eqb_refl. proj_simpl.
    rewrite (proj2 (Z.eqb_neq _ _) Hto), Hfree, Hacc. reflexivity. }
  assert (Hheld : slot (_owners (nft (minted to tokenId uri w))) tokenId = to)
    by (unfold minted; proj_simpl; apply slot_insert_eq).
  destruct (burn_Ok tokenId e (minted to tokenId uri w))
    as (w2 & Hb & Ho & _ & _ & Hu & _ & Hp & _ & _ & _ & _ & Hl & Hrm).
  { unfold minted. proj_simpl. exact Hs. }
  { rewrite Hheld. exact Hto. }
  rewrite Hheld in Hl.
  exists (minted to tokenId uri w), w2.
  split; [exact Hm|]. split; [exact Hb|].
  assert (Hgone : slot (_owners (nft w2)) tokenId = 0)
    by (rewrite Ho; apply slot_delete_eq).
  split; [exact Hgone|]. split; [exact Hu|].
  assert (Hset : uri <> EmptyString ->
                 _tokenURIs (nft (minted to tokenId uri w)) !! tokenId = Some uri).
  { intros Hne. unfold minted. proj_simpl.
    destruct uri as [|c u]; [congruence|]. simpl. apply lookup_insert_eq. }
  split.
  { intros Hne. split; [exact (Hset Hne)|].
    apply Hrm. rewrite (Hset Hne). exact Hne. }
  split.
  { eexists _, to. split; [exact Hto|]. rewrite Hl. unfold minted. proj_simpl.
    rewrite <- app_assoc. reflexivity. }
  intros to' uri' Hto' Hacc'.
  exists (minted to' tokenId uri' w2). split.
  - rewrite mint_unfold, Hp. unfold minted at 1. proj_simpl.
    rewrite Hs, Z.eqb_refl. proj_simpl.
    rewrite (proj2 (Z.eqb_neq _ _) Hto'), Hgone, Hacc'. reflexivity.
  - unfold minted. proj_simpl. rewrite slot_insert_eq. exact Hto'.
Qed.

Lemma mint_then_burn_witness :
  exists w1 w2,
    ReceiptNFT.mint 9 5 "ipfs://receipt" (plain_account 200 0 0) world1 = Ok (tt, w1) /\
    ReceiptNFT.burn 5 (plain_account 200 0 0) w1 = Ok (tt, w2) /\
    slot (_owners (nft w2)) 5 = 0 /\
    _tokenURIs (nft w2) !! 5 = None.
Proof.
  destruct (mint_then_burn world1 (plain_account 200 0 0) 9 5 "ipfs://receipt"
              eq_refl ltac:(lia) eq_refl eq_refl)
    as (w1 & w2 & Hm & Hb & Ho & _ & Hu & _).
  exists w1, w2. split; [exact Hm|]. split; [exact Hb|]. split; [exact Ho|].
  apply Hu. discriminate.
Defined.

(** ** Metadata *)

(** X15. The metadata given to [depositWithURI] is what [tokenURI] of the
    new certificate returns; a deposit without metadata writes none; and
    [tokenURI] of an id without holder fails with the not-found error. *)
Theorem deposit_metadata_roundtrip (w : World) (e e' : Env) (uri : string) :
  _status (sp w) = NOT_ENTERED -> 0 < value e ->
  nextId (sp w) + 1 <= MAX_UINT256 ->
  pool (nft w) = pool_address w ->
  sender e <> 0 ->
  slot (_owners (nft w)) (nextId (sp w) + 1) = 0 ->
  accepts_receipt e (sender e) = true ->
  exists w',
    transact (SavingsPool.depositWithURI uri) e w = (w', Ok (nextId (sp w) + 1)) /\
    (uri <> EmptyString ->
       ReceiptNFT.tokenURI (nextId (sp w) + 1) e' w' = Ok (uri, w')) /\
    (uri = EmptyString ->
       _tokenURIs (nft w') = _tokenURIs (nft w) /\
       (_tokenURIs (nft w) !! (nextId (sp w) + 1) = None ->
        ReceiptNFT.tokenURI (nextId (sp w) + 1) e' w' = Ok (EmptyString, w'))) /\
    (forall other, slot (_owners (nft w')) other = 0 ->
       ReceiptNFT.tokenURI other e' w' = Revert InvalidTokenId /\
       kind InvalidTokenId = NotFound).
Proof.
  intros Hst Hv Hmax Hpool Hnz Hfree Hacc.
  exists (deposited uri e w). unfold transact.
  rewrite depositWithURI_unfold. cbv zeta. rewrite Hst.
  rewrite bool_decide_eq_false_2 by discriminate.
  rewrite (proj2 (Z.ltb_lt 0 (value e)) Hv).
  rewrite (proj2 (Z.leb_le _ _) Hmax), Hpool, Z.eqb_refl,
    (proj2 (Z.eqb_neq _ _) Hnz), Hfree, Hacc.
  proj_simpl. split; [reflexivity|].
  unfold ReceiptNFT.tokenURI, ERC721URIStorage.tokenURI, ERC721._exists,
    ERC721._ownerOf.
  sol_unfold. split; [|split].
  - intros Hne. unfold deposited, minted. proj_simpl.
    rewrite slot_insert_eq, (proj2 (Z.eqb_neq _ _) Hnz). proj_simpl.
    destruct uri as [|c u]; [congruence|]. cbn [String.length Nat.eqb].
    rewrite lookup_insert_eq. reflexivity.
  - intros ->. unfold deposited, minted. proj_simpl. cbn [String.length Nat.eqb].
    split; [reflexivity|]. intros Hnone.
    rewrite slot_insert_eq, (proj2 (Z.eqb_neq _ _) Hnz). proj_simpl.
    rewrite Hnone. reflexivity.
  - intros other Hz. rewrite Hz. split; reflexivity.
Qed.

Lemma deposit_metadata_roundtrip_witness :
  exists w',
    transact (SavingsPool.depositWithURI "ipfs://receipt") (plain_account 8 700 20)
      world1 = (w', Ok 2) /\
    ReceiptNFT.tokenURI 2 (plain_account 9 0 30) w' = Ok ("ipfs://receipt"%string, w').
Proof.
  destruct (deposit_metadata_roundtrip world1 (plain_account 8 700 20)
              (plain_account 9 0 30) "ipfs://receipt"
              eq_refl ltac:(simpl; lia) ltac:(vm_compute; discriminate)
              eq_refl ltac:(vm_compute; discriminate) eq_refl eq_refl)
    as (w' & Ht & Hu & _).
  exists w'. split; [exact Ht|]. apply Hu. discriminate.
Defined.

(** ** The guard and the counter *)

(** X16. Both deposit entry points are behind the reentrancy guard: while a
    guarded call is in progress a deposit is turned away whatever it
    carries; reachable states have the guard free, so a top-level deposit
    never meets it; and a deposit with the counter at its maximum aborts on
    the checked increment instead of wrapping to id 0. *)
Theorem deposit_guard_and_counter (w : World) (e : Env) (uri : string) :
  (_status (sp w) = ENTERED ->
     transact SavingsPool.deposit e w = (w, Revert ReentrantCall) /\
     transact (SavingsPool.depositWithURI uri) e w = (w, Revert ReentrantCall)) /\
  (reachable w ->
     _status (sp w) = NOT_ENTERED /\
     SavingsPool.depositWithURI uri e w <> Revert ReentrantCall) /\
  (_status (sp w) = NOT_ENTERED -> 0 < value e -> nextId (sp w) = MAX_UINT256 ->
     transact (SavingsPool.depositWithURI uri) e w = (w, Revert ArithmeticPanic)).
Proof.
  split; [|split].
  - intros Hst. unfold transact. rewrite deposit_unfold, !depositWithURI_unfold.
    cbv zeta. rewrite Hst, bool_decide_eq_true_2 by reflexivity.
    split; reflexivity.
  - intros Hr. pose proof (inv_status w (reachable_inv w Hr)) as Hst.
    split; [exact Hst|]. rewrite depositWithURI_unfold. cbv zeta. rewrite Hst.
    rewrite bool_decide_eq_false_2 by discriminate.
    repeat case_match; discriminate.
  - intros Hst Hv Hmax. unfold transact. rewrite depositWithURI_unfold.
    cbv zeta. rewrite Hst, bool_decide_eq_false_2 by discriminate.
    rewrite (proj2 (Z.ltb_lt 0 (value e)) Hv). proj_simpl.
    rewrite (proj2 (Z.leb_gt (nextId (sp w) + 1) MAX_UINT256)) by lia.
    reflexivity.
Qed.

Lemma deposit_guard_and_counter_witness :
  transact SavingsPool.deposit (plain_account 7 300 40) world1_mid_withdraw
    = (world1_mid_withdraw, Revert ReentrantCall) /\
  _status (sp world1) = NOT_ENTERED /\
  transact (SavingsPool.depositWithURI EmptyString) (plain_account 7 300 40)
    world_exhausted = (world_exhausted, Revert ArithmeticPanic).
Proof.
  split; [|split].
  - apply (deposit_guard_and_counter world1_mid_withdraw (plain_account 7 300 40)
             EmptyString).
    reflexivity.
  - apply (deposit_guard_and_counter world1 (plain_account 7 300 40) EmptyString).
    exact world1_reachable.
  - apply (deposit_guard_and_counter world_exhausted (plain_account 7 300 40)
             EmptyString); [reflexivity | simpl; lia | reflexivity].
Defined.
